(** * Stateless: the writing-session component (src/components/writing.tsx)

    A shallow embedding of the [Writing] React component: its state
    variables, its two interval effects, its event handlers and the
    [formatTime] helper, followed by the properties of the timed-session
    logic.

    Conventions of the embedding.
    - A JavaScript [number] that holds an integer (timestamps of
      [Date.now()] in milliseconds, second and minute counts) is a [Z];
      sums, differences and products of the component's counts are exact.
      The quotient in [formatTime] is rounded to binary64 as the code
      rounds it, since its floor depends on the rounding. The fractional
      quantities that are only compared, [elapsed] in [checkTimeout] and
      [progressPercentage], are kept as exact rationals.
    - A handler is a computation in the monad [M]: it threads the component
      state, appends the toasts it raises, and may throw.
    - One dispatched event is atomic: the handler runs, React re-renders,
      and the effects whose dependencies changed are cleaned up and re-run
      before anything else happens. [reachable] collects the states
      between events; [committed] adds the render React commits after a
      handler and before its effects. *)

From Stdlib Require Import ZArith QArith Qround Bool List Lia.
From Stdlib Require Import Strings.String Strings.Ascii.
From Stdlib Require Import Numbers.DecimalString Numbers.DecimalZ.
Import ListNotations.

Local Open Scope string_scope.
Local Open Scope Z_scope.

(* ================================================================== *)
(** ** JavaScript primitives used by the component *)

Module JS.

(** [Number.prototype.toString()] on a safe integer (at most
    [MAX_SAFE_INTEGER] in absolute value): its decimal digits, with a
    leading minus sign for a negative one. Beyond that range the code
    prints the shortest digits that identify the number, which this
    definition does not follow; what is proved of the code applies it to
    safe integers only. *)
Definition toString (n : Z) : string :=
  NilEmpty.string_of_int (Z.to_int n).

(** Truthiness of a number: every number but zero. *)
Definition truthy (n : Z) : bool := negb (n =? 0).

(** [x > y] on numbers. *)
Definition gt (x y : Q) : bool := negb (Qle_bool x y).

(** [count] characters taken cyclically from [pad], starting with what is
    left of the current copy, [cur]. *)
Fixpoint filler (pad cur : string) (count : nat) : string :=
  match count with
  | O => ""
  | S k =>
      match cur with
      | String c rest => String c (filler pad rest k)
      | EmptyString =>
          match pad with
          | String c rest => String c (filler pad rest k)
          | EmptyString => ""
          end
      end
  end.

(** [String.prototype.padStart(targetLength, padString)]. *)
Definition padStart (targetLength : nat) (padString s : string) : string :=
  if (targetLength <=? String.length s)%nat then s
  else filler padString padString (targetLength - String.length s) ++ s.

(** [Number.MAX_SAFE_INTEGER]: up to here every integer is a [number] and
    [toString] prints it digit for digit. *)
Definition MAX_SAFE_INTEGER : Z := 2 ^ 53 - 1.

(** [num / den] rounded to the nearest integer, ties to the even one. *)
Definition nearest_even (num den : Z) : Z :=
  let f := num / den in
  let r := num mod den in
  if 2 * r <? den then f
  else if den <? 2 * r then f + 1
  else if Z.even f then f else f + 1.

(** Numerator and denominator of [(n / d) / 2^e]. *)
Definition scaled (n : Z) (d : positive) (e : Z) : Z * Z :=
  if 0 <=? e then (n, Z.pos d * 2 ^ e) else (n * 2 ^ (- e), Z.pos d).

(** The exponent [e] of the last place of the binary64 number nearest to
    the positive [n / d]: 53 significant bits, so
    [2^52 <= (n / d) / 2^e < 2^53], and never below that of the
    subnormal numbers. *)
Definition ulp_exponent (n : Z) (d : positive) : Z :=
  let e := Z.log2 n - Z.log2 (Z.pos d) - 52 in
  let (num, den) := scaled n d e in
  Z.max (-1074) (if num / den <? 2 ^ 52 then e - 1 else e).

Definition round_positive (n : Z) (d : positive) : Q :=
  let e := ulp_exponent n d in
  let (num, den) := scaled n d e in
  let m := nearest_even num den in
  if 0 <=? e then inject_Z (m * 2 ^ e) else m # Z.to_pos (2 ^ (- e)).

(** Round a rational to the nearest binary64 number, ties to even (the
    rounding of every arithmetic operation on numbers). Overflow to
    [Infinity] is not represented: the quotients taken here are smaller
    than their dividend. *)
Definition round64 (q : Q) : Q :=
  match Qnum q with
  | 0 => 0%Q
  | Z.pos _ => round_positive (Qnum q) (Qden q)
  | Z.neg _ => (- round_positive (- Qnum q) (Qden q))%Q
  end.

(** The integer [n] is a number, held exactly. *)
Definition representable (n : Z) : bool :=
  Qeq_bool (round64 (inject_Z n)) (inject_Z n).

(** [x / y] on numbers, for a positive divisor. *)
Definition div (x : Z) (y : positive) : Q := round64 (x # y).

(** [Math.floor]. *)
Definition floor (q : Q) : Z := Qfloor q.

(** [x % y]: the remainder takes the sign of the dividend. *)
Definition rem (x y : Z) : Z := Z.rem x y.

End JS.

(* ================================================================== *)
(** ** Component state *)

Definition DEFAULT_TIMEOUT : Z := 7.
Definition MIN_SESSION_TIME : Z := 5.
Definition MAX_SESSION_TIME : Z := 180.

(** Bounds of the timeout slider ([min={3}], [max={15}]). *)
Definition MIN_TIMEOUT : Z := 3.
Definition MAX_TIMEOUT : Z := 15.

(** What the [checkTimeout] closure of one run of the first effect has
    captured from the render it was created in. *)
Record Closure : Type := mkClosure {
  cl_lastKeystroke : Z;
  cl_timeoutSeconds : Z
}.

(** The [useState] variables of [Writing], and the two intervals: the
    [interval] of the first effect (with the closure it runs) and the one
    held in [sessionTimerRef.current]. *)
Record State : Type := mkState {
  text : string;
  isActive : bool;
  sessionTime : Z;
  timeRemaining : Z;
  lastKeystroke : Z;
  showSettings : bool;
  timeoutSeconds : Z;
  timeoutInterval : option Closure;
  sessionTimerRunning : bool
}.

(** State on mount: the [useState] initial values; both effects return at
    once because [isActive] is false. *)
Definition initial : State :=
  {| text := "";
     isActive := false;
     sessionTime := 15;
     timeRemaining := 0;
     lastKeystroke := 0;
     showSettings := false;
     timeoutSeconds := DEFAULT_TIMEOUT;
     timeoutInterval := None;
     sessionTimerRunning := false |}.

(** Notifications raised through [sonner]'s [toast]. *)
Inductive Toast : Type :=
| ToastError (msg : string)
| ToastSuccess (msg : string)
| ToastInfo (msg : string).

(** The error kinds the specification names. The source contains no
    [throw]; the type is what a handler could raise if it had one. *)
Inductive Exception : Type :=
| InvalidStateError
| InvalidConfigError.

(* ================================================================== *)
(** ** The handler monad: state, toast output, exceptions *)

Inductive Result (A : Type) : Type :=
| Returned (a : A) (s : State) (out : list Toast)
| Thrown (e : Exception).

Arguments Returned {A} a s out.
Arguments Thrown {A} e.

Definition M (A : Type) : Type := State -> Result A.

Definition ret {A} (a : A) : M A := fun s => Returned a s [].

Definition bind {A B} (m : M A) (f : A -> M B) : M B :=
  fun s =>
    match m s with
    | Returned a s1 o1 =>
        match f a s1 with
        | Returned b s2 o2 => Returned b s2 (o1 ++ o2)
        | Thrown e => Thrown e
        end
    | Thrown e => Thrown e
    end.

Declare Scope js_scope.
Delimit Scope js_scope with js.
Notation "x <- m ;; k" := (bind m (fun x => k))
  (at level 61, m at next level, right associativity) : js_scope.
Notation "m ;; k" := (bind m (fun _ => k))
  (at level 61, right associativity) : js_scope.
Local Open Scope js_scope.

Definition gets {A} (proj : State -> A) : M A := fun s => Returned (proj s) s [].
Definition modify (f : State -> State) : M unit := fun s => Returned tt (f s) [].
Definition toast (t : Toast) : M unit := fun s => Returned tt s [t].

(** State and output of a computation that returned. *)
Definition state_of {A} (r : Result A) (dflt : State) : State :=
  match r with Returned _ s _ => s | Thrown _ => dflt end.
Definition output_of {A} (r : Result A) : list Toast :=
  match r with Returned _ _ o => o | Thrown _ => [] end.
Definition exec {A} (m : M A) (s : State) : State := state_of (m s) s.
Definition emitted {A} (m : M A) (s : State) : list Toast := output_of (m s).

(** *** State setters *)

(** Functional update of one field. *)
Definition with_text (v : string) (s : State) : State :=
  mkState v (isActive s) (sessionTime s) (timeRemaining s) (lastKeystroke s) (showSettings s) (timeoutSeconds s) (timeoutInterval s) (sessionTimerRunning s).

Definition with_isActive (v : bool) (s : State) : State :=
  mkState (text s) v (sessionTime s) (timeRemaining s) (lastKeystroke s) (showSettings s) (timeoutSeconds s) (timeoutInterval s) (sessionTimerRunning s).

Definition with_sessionTime (v : Z) (s : State) : State :=
  mkState (text s) (isActive s) v (timeRemaining s) (lastKeystroke s) (showSettings s) (timeoutSeconds s) (timeoutInterval s) (sessionTimerRunning s).

Definition with_timeRemaining (v : Z) (s : State) : State :=
  mkState (text s) (isActive s) (sessionTime s) v (lastKeystroke s) (showSettings s) (timeoutSeconds s) (timeoutInterval s) (sessionTimerRunning s).

Definition with_lastKeystroke (v : Z) (s : State) : State :=
  mkState (text s) (isActive s) (sessionTime s) (timeRemaining s) v (showSettings s) (timeoutSeconds s) (timeoutInterval s) (sessionTimerRunning s).

Definition with_showSettings (v : bool) (s : State) : State :=
  mkState (text s) (isActive s) (sessionTime s) (timeRemaining s) (lastKeystroke s) v (timeoutSeconds s) (timeoutInterval s) (sessionTimerRunning s).

Definition with_timeoutSeconds (v : Z) (s : State) : State :=
  mkState (text s) (isActive s) (sessionTime s) (timeRemaining s) (lastKeystroke s) (showSettings s) v (timeoutInterval s) (sessionTimerRunning s).

Definition with_timeoutInterval (v : option Closure) (s : State) : State :=
  mkState (text s) (isActive s) (sessionTime s) (timeRemaining s) (lastKeystroke s) (showSettings s) (timeoutSeconds s) v (sessionTimerRunning s).

Definition with_sessionTimerRunning (v : bool) (s : State) : State :=
  mkState (text s) (isActive s) (sessionTime s) (timeRemaining s) (lastKeystroke s) (showSettings s) (timeoutSeconds s) (timeoutInterval s) v.

(** The [useState] setters, and [setInterval] / [clearInterval] on the two
    timers. *)
Definition setText (v : string) : M unit := modify (with_text v).
Definition setIsActive (v : bool) : M unit := modify (with_isActive v).
Definition setSessionTime (v : Z) : M unit := modify (with_sessionTime v).
Definition setTimeRemaining (v : Z) : M unit := modify (with_timeRemaining v).
Definition setLastKeystroke (v : Z) : M unit := modify (with_lastKeystroke v).
Definition setShowSettings (v : bool) : M unit := modify (with_showSettings v).
Definition setTimeoutSeconds (v : Z) : M unit := modify (with_timeoutSeconds v).
Definition setTimeoutInterval (v : option Closure) : M unit := modify (with_timeoutInterval v).
Definition setSessionTimerRunning (v : bool) : M unit := modify (with_sessionTimerRunning v).

(* ================================================================== *)
(** ** Handlers *)

(** The condition of the [if] in [checkTimeout] (lines 35-38):
    [elapsed = (now - lastKeystroke) / 1000] and
    [lastKeystroke && elapsed > timeoutSeconds]. *)
Definition elapsed (lastKeystroke now : Z) : Q := (now - lastKeystroke) # 1000.

Definition expired (lastKeystroke timeoutSeconds now : Z) : bool :=
  JS.truthy lastKeystroke
  && JS.gt (elapsed lastKeystroke now) (inject_Z timeoutSeconds).

Definition deleted_message (timeoutSeconds : Z) : string :=
  "You stopped typing for " ++ JS.toString timeoutSeconds
  ++ " seconds. Your text has been deleted.".

(** [checkTimeout] (lines 34-43), run by the first effect's interval with
    the values its closure captured; [now] is what [Date.now()] returns. *)
Definition checkTimeout (c : Closure) (now : Z) : M unit :=
  if expired (cl_lastKeystroke c) (cl_timeoutSeconds c) now then
    setText "" ;;
    toast (ToastError (deleted_message (cl_timeoutSeconds c)))
  else ret tt.

Definition completed_message : string :=
  "Congratulations! You completed your writing session.".
Definition ended_message : string :=
  "Session ended. Your text has been preserved.".

(** [endSession] (lines 86-97). *)
Definition endSession (completed : bool) : M unit :=
  setIsActive false ;;
  setSessionTimerRunning false ;;
  if completed then toast (ToastSuccess completed_message)
  else toast (ToastInfo ended_message).

(** The callback of the session timer (lines 55-64): the updater given to
    [setTimeRemaining]. It reads no clock. *)
Definition sessionTimerCallback : M unit :=
  prev <- gets timeRemaining ;;
  if prev <=? 1 then
    endSession true ;;
    setTimeRemaining 0
  else setTimeRemaining (prev - 1).

Definition started_message (timeoutSeconds : Z) : string :=
  "Session started! Keep typing or lose your work after "
  ++ JS.toString timeoutSeconds ++ " seconds of inactivity.".

(** [startSession] (lines 73-84); the deferred [focus()] touches no state. *)
Definition startSession (now : Z) : M unit :=
  setIsActive true ;;
  setLastKeystroke now ;;
  setText "" ;;
  t <- gets timeoutSeconds ;;
  toast (ToastSuccess (started_message t)).

(** [handleTextChange] (lines 99-102); [value] is [e.target.value]. *)
Definition handleTextChange (value : string) (now : Z) : M unit :=
  setText value ;;
  setLastKeystroke now.

(** [formatTime] (lines 104-108). *)
Definition formatTime (seconds : Z) : string :=
  let minutes := JS.floor (JS.div seconds 60) in
  let remainingSeconds := JS.rem seconds 60 in
  JS.toString minutes ++ ":" ++ JS.padStart 2 "0" (JS.toString remainingSeconds).

(** The [onValueChange] callbacks of the two sliders (lines 152 and 166);
    [v] is [value[0]], the position of the single thumb. *)
Definition onSessionTimeChange (v : Z) : M unit := setSessionTime v.
Definition onTimeoutChange (v : Z) : M unit := setTimeoutSeconds v.

(* ================================================================== *)
(** ** Effects *)

(** First effect (lines 31-47), dependencies
    [[isActive, lastKeystroke, timeoutSeconds]]. When they change React
    runs the clean-up of the previous run ([clearInterval(interval)], of no
    consequence on a timer that is not running) and then the body, which
    returns at once unless [isActive] and otherwise starts an interval
    whose [checkTimeout] sees the values of this render. *)
Definition timeoutEffect : M unit :=
  setTimeoutInterval None ;;
  active <- gets isActive ;;
  if negb active then ret tt
  else
    lk <- gets lastKeystroke ;;
    ts <- gets timeoutSeconds ;;
    setTimeoutInterval (Some (mkClosure lk ts)).

(** Second effect (lines 50-71), dependencies [[isActive, sessionTime]]. *)
Definition sessionEffect : M unit :=
  setSessionTimerRunning false ;;
  active <- gets isActive ;;
  if negb active then ret tt
  else
    st <- gets sessionTime ;;
    setTimeRemaining (st * 60) ;;
    setSessionTimerRunning true.

Definition same_timeoutDeps (a b : State) : bool :=
  Bool.eqb (isActive a) (isActive b)
  && (lastKeystroke a =? lastKeystroke b)
  && (timeoutSeconds a =? timeoutSeconds b).

Definition same_sessionDeps (a b : State) : bool :=
  Bool.eqb (isActive a) (isActive b)
  && (sessionTime a =? sessionTime b).

(** After the render that follows a handler: every effect whose
    dependencies differ from those of the previous render, [prev]. *)
Definition runEffects (prev : State) : M unit :=
  cur <- gets (fun s => s) ;;
  (if same_timeoutDeps prev cur then ret tt else timeoutEffect) ;;
  (if same_sessionDeps prev cur then ret tt else sessionEffect).

(* ================================================================== *)
(** ** Events *)

(** What can happen to the mounted component: the user acts on a control,
    or one of the two intervals fires. *)
Inductive Event : Type :=
| ClickStart (now : Z)
| ClickEnd
| ChangeText (value : string) (now : Z)
| OpenSettings
| CloseSettings
| SlideSessionTime (v : Z)
| SlideTimeout (v : Z)
| TimeoutTick (now : Z)
| SessionTick.

(** The code an event runs. An interval that has been cleared runs
    nothing. *)
Definition handler (ev : Event) : M unit :=
  match ev with
  | ClickStart now => startSession now
  | ClickEnd => endSession false
  | ChangeText value now => handleTextChange value now
  | OpenSettings => setShowSettings true
  | CloseSettings => setShowSettings false
  | SlideSessionTime v => onSessionTimeChange v
  | SlideTimeout v => onTimeoutChange v
  | TimeoutTick now =>
      i <- gets timeoutInterval ;;
      match i with
      | Some c => checkTimeout c now
      | None => ret tt
      end
  | SessionTick =>
      running <- gets sessionTimerRunning ;;
      if running then sessionTimerCallback else ret tt
  end.

(** One call of a handler from outside: the handler, then the render and
    the effects it causes. *)
Definition call (h : M unit) : M unit :=
  prev <- gets (fun s => s) ;;
  h ;;
  runEffects prev.

Definition dispatch (ev : Event) : M unit := call (handler ev).

(** Which events the rendered tree offers (lines 114-239): the Start button
    is rendered only when not active, the End button and the textarea only
    when active, the Settings trigger is disabled when active, the sliders
    live in the open dialog and deliver values between their [min] and
    [max] on their [step] grid. The intervals fire whenever the clock says
    so. *)
Definition offered (ev : Event) (s : State) : bool :=
  match ev with
  | ClickStart _ => negb (isActive s)
  | ClickEnd => isActive s
  | ChangeText _ _ => isActive s
  | OpenSettings => negb (isActive s)
  | CloseSettings => showSettings s
  | SlideSessionTime v =>
      showSettings s && (MIN_SESSION_TIME <=? v) && (v <=? MAX_SESSION_TIME)
      && ((v - MIN_SESSION_TIME) mod 5 =? 0)
  | SlideTimeout v =>
      showSettings s && (MIN_TIMEOUT <=? v) && (v <=? MAX_TIMEOUT)
  | TimeoutTick _ => true
  | SessionTick => true
  end.

Definition step (ev : Event) (s : State) : State := exec (dispatch ev) s.

(** States the mounted component can be in between events: every event so
    far has run its handler and the effects of the render it caused. *)
Inductive reachable : State -> Prop :=
| reach_initial : reachable initial
| reach_step s ev :
    reachable s -> offered ev s = true -> reachable (step ev s).

(** Run a list of events, oldest first. *)
Fixpoint run (evs : list Event) (s : State) : State :=
  match evs with
  | [] => s
  | ev :: rest => run rest (step ev s)
  end.

(** Every event of the list is offered when its turn comes. *)
Fixpoint all_offered (evs : list Event) (s : State) : bool :=
  match evs with
  | [] => true
  | ev :: rest => offered ev s && all_offered rest (step ev s)
  end.

(** What the effects maintain between events. *)
Record consistent (s : State) : Prop := mkConsistent {
  cons_timeout :
    timeoutInterval s =
      if isActive s then Some (mkClosure (lastKeystroke s) (timeoutSeconds s))
      else None;
  cons_session : sessionTimerRunning s = isActive s;
  cons_sessionTime : MIN_SESSION_TIME <= sessionTime s <= MAX_SESSION_TIME;
  cons_timeoutSeconds : MIN_TIMEOUT <= timeoutSeconds s <= MAX_TIMEOUT;
  cons_remaining_nonneg : 0 <= timeRemaining s;
  cons_remaining_bound : isActive s = true -> timeRemaining s <= sessionTime s * 60
}.

(* ================================================================== *)
(** ** Reading a formatted time back *)

(** Value of a decimal digit character. *)
Definition digit_value (c : ascii) : option Z :=
  let n := Z.of_nat (nat_of_ascii c) in
  if (48 <=? n) && (n <=? 57) then Some (n - 48) else None.

(** Horner evaluation of a string of decimal digits. *)
Fixpoint decimal_value_from (acc : Z) (s : string) : option Z :=
  match s with
  | EmptyString => Some acc
  | String c rest =>
      match digit_value c with
      | Some d => decimal_value_from (10 * acc + d) rest
      | None => None
      end
  end.

Definition decimal_value (s : string) : option Z :=
  match s with
  | EmptyString => None
  | _ => decimal_value_from 0 s
  end.

(** No superfluous leading zero. *)
Definition canonical (s : string) : bool :=
  match s with
  | String "0" (String _ _) => false
  | _ => true
  end.

(** [s] is the decimal numeral of [n]. *)
Definition decimal_of (n : Z) (s : string) : Prop :=
  decimal_value s = Some n /\ canonical s = true.

(** The character of a decimal digit, and the two-digit rendering of a
    number below one hundred. *)
Definition digit (d : Z) : ascii := ascii_of_nat (48 + Z.to_nat d).

Definition two_digits (r : Z) : string :=
  String (digit (r / 10)) (String (digit (r mod 10)) EmptyString).

(** Cut a string at its first colon. *)
Fixpoint split_colon (s : string) : option (string * string) :=
  match s with
  | EmptyString => None
  | String c rest =>
      if Ascii.eqb c ":" then Some (EmptyString, rest)
      else
        match split_colon rest with
        | Some (l, r) => Some (String c l, r)
        | None => None
        end
  end.

(** Read ["m:ss"] as [m * 60 + ss] seconds. *)
Definition parseTime (s : string) : option Z :=
  match split_colon s with
  | Some (m, sec) =>
      match decimal_value m, decimal_value sec with
      | Some a, Some b => Some (a * 60 + b)
      | _, _ => None
      end
  | None => None
  end.

(** The seconds field, checked on each of the sixty remainders. *)
Definition seconds_field_ok (n : nat) : bool :=
  let r := Z.of_nat n in
  String.eqb (JS.padStart 2 "0" (JS.toString r)) (two_digits r)
  && match decimal_value (two_digits r) with
     | Some v => v =? r
     | None => false
     end.

(* ================================================================== *)
(** ** The contract as the specification words it, for comparison *)

(** A toast that announces the end of a session ([endSession], either
    branch). *)
Definition session_ended (t : Toast) : bool :=
  match t with
  | ToastSuccess m => String.eqb m completed_message
  | ToastInfo m => String.eqb m ended_message
  | ToastError _ => false
  end.

Definition count (p : Toast -> bool) (out : list Toast) : nat :=
  List.length (filter p out).

(** A session started on a fresh mount at [Date.now() = 1000]. *)
Definition started : State := step (ClickStart 1000) initial.

(** The same session after the user typed a draft and the session timer
    fired 899 times: one second is left of the default fifteen minutes. *)
Definition last_second : State :=
  run (ChangeText "draft" 1500 :: repeat SessionTick 899) started.

(** Worded: an expiry clears the buffer, moves the last-edit mark to the
    tick and keeps the phase, so that no tick within the next window
    signals an erasure again. *)
Definition worded_expiry_resets : Prop :=
  forall s now,
    reachable s -> isActive s = true ->
    expired (lastKeystroke s) (timeoutSeconds s) now = true ->
    let s' := step (TimeoutTick now) s in
    text s' = "" /\ lastKeystroke s' = now /\ isActive s' = true
    /\ forall now', now <= now' <= now + 1000 * timeoutSeconds s ->
         emitted (dispatch (TimeoutTick now')) s' = [].

(** Worded: a tick takes off the whole seconds elapsed since the previous
    tick, at least one, and stops at zero. [prevTick] and [now] are the
    times in milliseconds at which the two ticks fire. *)
Definition worded_tick_remaining (prevTick now remaining : Z) : Z :=
  Z.max 0 (remaining - Z.max 1 ((now - prevTick) / 1000)).

Definition worded_tick_by_elapsed : Prop :=
  forall s prevTick now,
    reachable s -> isActive s = true -> prevTick <= now ->
    timeRemaining (step SessionTick s)
    = worded_tick_remaining prevTick now (timeRemaining s).

(** Worded: of two calls of [end] in a row the second changes nothing and
    only one session-ended notification comes out. *)
Definition worded_end_once : Prop :=
  forall s c1 c2,
    reachable s -> isActive s = true ->
    let s1 := exec (call (endSession c1)) s in
    (exists out, call (endSession c2) s1 = Returned tt s1 out)
    /\ count session_ended
         (emitted (call (endSession c1)) s ++ emitted (call (endSession c2)) s1)
       = 1%nat.

(** Worded: [start] is refused in an active session and initialises the
    session otherwise. *)
Definition worded_start_guarded : Prop :=
  (forall s now,
     reachable s -> isActive s = true ->
     call (startSession now) s = Thrown InvalidStateError)
  /\ (forall s now,
        reachable s -> isActive s = false ->
        let s' := exec (call (startSession now)) s in
        (exists out, call (startSession now) s = Returned tt s' out)
        /\ isActive s' = true /\ timeRemaining s' = sessionTime s * 60
        /\ text s' = "" /\ lastKeystroke s' = now).

(** Worded: an edit is refused outside an active session and recorded
    inside one. *)
Definition worded_edit_guarded : Prop :=
  (forall s value now,
     reachable s -> isActive s = false ->
     call (handleTextChange value now) s = Thrown InvalidStateError)
  /\ (forall s value now,
        reachable s -> isActive s = true ->
        let s' := exec (call (handleTextChange value now)) s in
        (exists out, call (handleTextChange value now) s = Returned tt s' out)
        /\ text s' = value /\ lastKeystroke s' = now).

(** Worded: configuring is refused in an active session, refused for a
    value outside its bounds, and stored otherwise. *)
Definition worded_configure_guarded : Prop :=
  (forall s v,
     reachable s -> isActive s = true ->
     call (onSessionTimeChange v) s = Thrown InvalidStateError
     /\ call (onTimeoutChange v) s = Thrown InvalidStateError)
  /\ (forall s v,
        reachable s -> isActive s = false ->
        ~ MIN_SESSION_TIME <= v <= MAX_SESSION_TIME ->
        call (onSessionTimeChange v) s = Thrown InvalidConfigError)
  /\ (forall s v,
        reachable s -> isActive s = false ->
        ~ MIN_TIMEOUT <= v <= MAX_TIMEOUT ->
        call (onTimeoutChange v) s = Thrown InvalidConfigError)
  /\ (forall s v,
        reachable s -> isActive s = false ->
        MIN_SESSION_TIME <= v <= MAX_SESSION_TIME ->
        exists out,
          call (onSessionTimeChange v) s = Returned tt (with_sessionTime v s) out)
  /\ (forall s v,
        reachable s -> isActive s = false ->
        MIN_TIMEOUT <= v <= MAX_TIMEOUT ->
        exists out,
          call (onTimeoutChange v) s = Returned tt (with_timeoutSeconds v s) out).

(** Worded: for every non-negative integer the code can be given,
    [formatTime] writes the integer quotient by sixty, a colon and the
    remainder on two digits, and reading it back gives the input. *)
Definition worded_formatTime : Prop :=
  forall s,
    0 <= s -> JS.representable s = true ->
    formatTime s = JS.toString (s / 60) ++ ":" ++ two_digits (s mod 60)
    /\ parseTime (formatTime s) = Some s.

(** The two kinds of clock event. *)
Definition is_tick (ev : Event) : bool :=
  match ev with
  | TimeoutTick _ | SessionTick => true
  | _ => false
  end.

(** What a run of clock events keeps of a session of [d] seconds. *)
Definition countdown_within (d : Z) (s : State) : Prop :=
  consistent s /\ sessionTime s * 60 = d /\ timeRemaining s <= d.

(* ================================================================== *)
(** ** What the component renders *)

(** [progressPercentage] (lines 110-112), as a real number. The divisor
    [sessionTime * 60] is never zero in a reachable state. *)
Definition progressPercentage (s : State) : Q :=
  if isActive s then
    (inject_Z (sessionTime s * 60 - timeRemaining s)
     / inject_Z (sessionTime s * 60)) * inject_Z 100
  else 0.

(** The text of the [CardDescription] (lines 121-125). *)
Definition cardDescription (s : State) : string :=
  if isActive s then "Time remaining: " ++ formatTime (timeRemaining s)
  else "Session length: " ++ JS.toString (sessionTime s) ++ " minutes".

(** What is left of [s] after the prefix [p], if [s] starts with it. *)
Fixpoint strip_prefix (p s : string) : option string :=
  match p with
  | EmptyString => Some s
  | String a p' =>
      match s with
      | String b s' => if Ascii.eqb a b then strip_prefix p' s' else None
      | EmptyString => None
      end
  end.

(** The remaining time a reader takes from the card description. *)
Definition shownTime (description : string) : option Z :=
  match strip_prefix "Time remaining: " description with
  | Some t => parseTime t
  | None => None
  end.

(** The toasts a list of events raises, oldest first. *)
Fixpoint run_output (evs : list Event) (s : State) : list Toast :=
  match evs with
  | [] => []
  | ev :: rest => emitted (dispatch ev) s ++ run_output rest (step ev s)
  end.

(** The render React commits after the handler of an event and before the
    effects of that render: the handler's updates are in, the effects'
    are not. *)
Definition render_before_effects (ev : Event) (s : State) : State :=
  exec (handler ev) s.

(** Every state the component commits: the states between events and the
    renders in between. *)
Inductive committed : State -> Prop :=
| committed_settled s : reachable s -> committed s
| committed_before_effects s ev :
    reachable s -> offered ev s = true ->
    committed (render_before_effects ev s).

(** A three-hour session ended at once, then the length set to five
    minutes. *)
Definition shortened : State :=
  run [OpenSettings; SlideSessionTime 180; CloseSettings; ClickStart 1000;
       ClickEnd; OpenSettings; SlideSessionTime 5; CloseSettings] initial.

(** What every reachable state satisfies beyond [consistent]: the session
    length sits on the slider's grid, and an active session has time
    left. *)
Definition well_timed (s : State) : Prop :=
  consistent s
  /\ sessionTime s mod 5 = 0
  /\ (isActive s = true -> 1 <= timeRemaining s).

(* ================================================================== *)
(** ** Basic facts *)

Example formatTime_examples :
  formatTime 0 = "0:00" /\ formatTime 65 = "1:05" /\ formatTime 600 = "10:00"
  /\ formatTime 10799 = "179:59".
Proof. repeat split; reflexivity. Qed.

Lemma consistent_initial : consistent initial.
Proof.
  constructor; cbn;
    unfold MIN_SESSION_TIME, MAX_SESSION_TIME, MIN_TIMEOUT, MAX_TIMEOUT,
      DEFAULT_TIMEOUT; try reflexivity; lia.
Qed.

(** Evaluate a handler on a state with symbolic fields, leaving integer
    arithmetic, the expiry test and the message texts folded. *)
Ltac js_eval :=
  cbv -[Z.add Z.sub Z.mul Z.opp Z.leb Z.eqb Z.ltb Z.le Z.lt Z.ge Z.gt
        Z.div Z.modulo Z.rem Z.max Z.min expired
        deleted_message started_message completed_message ended_message] in *.

Ltac js_case :=
  match goal with
  | |- context [Z.eqb ?a ?a] => rewrite (Z.eqb_refl a)
  | |- context [Z.eqb ?a ?b] => destruct (Z.eqb_spec a b)
  | |- context [Z.leb ?a ?b] => destruct (Z.leb_spec a b)
  | |- context [expired ?a ?b ?c] => destruct (expired a b c) eqn:?
  end.

Ltac js_run := js_eval; repeat (js_case; js_eval).

Ltac split_offered H :=
  repeat match type of H with
  | (_ && _)%bool = true => let H' := fresh H in apply andb_prop in H; destruct H as [H H']
  end;
  repeat match goal with
  | X : (_ <=? _) = true |- _ => apply Z.leb_le in X
  | X : (_ =? _) = true |- _ => apply Z.eqb_eq in X
  end.

Lemma consistent_step ev s :
  consistent s -> offered ev s = true -> consistent (step ev s).
Proof.
  intros [Hi Hr Hst Hts Hn Hb] Hoff.
  destruct s as [tx act st tr lk sh ts ti run]; cbn in Hi, Hr, Hst, Hts, Hn, Hb.
  subst ti run.
  unfold MIN_SESSION_TIME, MAX_SESSION_TIME, MIN_TIMEOUT, MAX_TIMEOUT in *.
  destruct ev, act; cbn in Hoff; try discriminate Hoff;
    unfold MIN_SESSION_TIME, MAX_SESSION_TIME, MIN_TIMEOUT, MAX_TIMEOUT in *;
    split_offered Hoff; js_run; subst.
  all: constructor; js_eval; try reflexivity; try lia; try discriminate; intuition lia.
Qed.

(* ================================================================== *)
(** ** The expiry test *)

Lemma gt_iff (x y : Q) : JS.gt x y = true <-> (y < x)%Q.
Proof.
  unfold JS.gt. rewrite negb_true_iff, <- not_true_iff_false, Qle_bool_iff.
  split; [apply Qnot_le_lt | apply Qlt_not_le].
Qed.

Lemma truthy_iff (n : Z) : JS.truthy n = true <-> n <> 0.
Proof.
  unfold JS.truthy. rewrite negb_true_iff. apply Z.eqb_neq.
Qed.

Lemma expired_iff (lk ts now : Z) :
  expired lk ts now = true <-> lk <> 0 /\ (inject_Z ts < elapsed lk now)%Q.
Proof.
  unfold expired. now rewrite andb_true_iff, truthy_iff, gt_iff.
Qed.

(** The same test on the millisecond timestamps themselves. *)
Lemma expired_millis (lk ts now : Z) :
  expired lk ts now = true <-> lk <> 0 /\ 1000 * ts < now - lk.
Proof.
  rewrite expired_iff. unfold elapsed, Qlt, inject_Z. cbn [Qnum Qden].
  split; intros [H0 H]; split; try assumption; lia.
Qed.

(** C5. The expiry test of [checkTimeout] holds exactly when
    [lastKeystroke] is set (non-zero) and the seconds elapsed since it
    strictly exceed [timeoutSeconds]: it fails when the elapsed time equals
    the timeout, holds (for a set [lastKeystroke]) one second later, and
    fails whenever [lastKeystroke] is unset. *)
Theorem expired_strict (lk ts now : Z) :
  (expired lk ts now = true <-> lk <> 0 /\ (inject_Z ts < elapsed lk now)%Q)
  /\ ((elapsed lk now == inject_Z ts)%Q -> expired lk ts now = false)
  /\ (lk <> 0 -> (elapsed lk now == inject_Z (ts + 1))%Q ->
      expired lk ts now = true)
  /\ (lk = 0 -> expired lk ts now = false).
Proof.
  split; [apply expired_iff|]. split; [|split].
  - intros He. apply not_true_iff_false. rewrite expired_iff.
    intros [_ H]. rewrite He in H. now apply Qlt_irrefl in H.
  - intros Hlk He. apply expired_iff. split; [assumption|].
    rewrite He. rewrite <- Zlt_Qlt. lia.
  - intros ->. reflexivity.
Qed.

Lemma expired_strict_witness :
  expired 1000 7 8000 = false /\ expired 1000 7 9000 = true
  /\ expired 0 7 9000 = false.
Proof.
  split; [|split].
  - apply (proj1 (proj2 (expired_strict 1000 7 8000))). reflexivity.
  - apply (proj1 (proj2 (proj2 (expired_strict 1000 7 9000)))).
    + discriminate.
    + reflexivity.
  - apply (proj2 (proj2 (proj2 (expired_strict 0 7 9000)))). reflexivity.
Defined.

(* ================================================================== *)
(** ** [formatTime] *)

Section Decimal.

Import Decimal.

(** Horner evaluation agrees with the library's reading of a numeral,
    first with a positive accumulator, then from nothing. *)
Lemma decimal_value_from_acc (d : uint) (acc : positive) :
  decimal_value_from (Z.pos acc) (NilEmpty.string_of_uint d)
  = Some (Z.pos (Pos.of_uint_acc d acc)).
Proof.
  revert acc.
  induction d as [|d IH|d IH|d IH|d IH|d IH|d IH|d IH|d IH|d IH|d IH];
    intros acc; [reflexivity|..];
    cbn [NilEmpty.string_of_uint decimal_value_from Pos.of_uint_acc];
    unfold digit_value; cbn [nat_of_ascii]; cbv match;
    match goal with
    | |- context [if ?b then _ else _] =>
        replace b with true by reflexivity; cbv iota
    end;
    match goal with
    | |- context [Z.of_nat (nat_of_ascii ?c)] =>
        let v := eval vm_compute in (Z.of_nat (nat_of_ascii c)) in
        change (Z.of_nat (nat_of_ascii c)) with v
    end;
    rewrite <- IH; f_equal; lia.
Qed.

Lemma decimal_value_from_zero (d : uint) :
  decimal_value_from 0 (NilEmpty.string_of_uint d)
  = Some (Z.of_N (Pos.of_uint d)).
Proof.
  induction d as [|d IH|d IH|d IH|d IH|d IH|d IH|d IH|d IH|d IH|d IH];
    [reflexivity|exact IH|..];
    cbn [NilEmpty.string_of_uint decimal_value_from Pos.of_uint];
    apply (decimal_value_from_acc d).
Qed.

(** A numeral holds no colon, so cutting at the first colon cuts right
    after it. *)
Lemma split_colon_numeral (d : uint) (rest : string) :
  split_colon (NilEmpty.string_of_uint d ++ String ":" rest)
  = Some (NilEmpty.string_of_uint d, rest).
Proof.
  induction d; cbn [NilEmpty.string_of_uint String.append split_colon];
    [reflexivity|..]; rewrite IHd; reflexivity.
Qed.

(** Normalised numerals start with no zero, unless they are zero. *)
Lemma unorm_canonical (d : uint) :
  canonical (NilEmpty.string_of_uint (unorm d)) = true.
Proof.
  induction d; try reflexivity; try exact IHd;
    cbn [unorm NilEmpty.string_of_uint]; destruct d; reflexivity.
Qed.

Lemma toString_nonneg (m : Z) :
  0 <= m ->
  exists u, JS.toString m = NilEmpty.string_of_uint u
            /\ u <> Nil /\ Z.of_N (Pos.of_uint u) = m /\ unorm u = u.
Proof.
  intros Hm. destruct m as [|p|p]; [| |lia].
  - exists zero. repeat split. discriminate.
  - exists (Pos.to_uint p). unfold JS.toString. cbn [Z.to_int NilEmpty.string_of_int].
    repeat split.
    + apply DecimalPos.Unsigned.to_uint_nonnil.
    + now rewrite DecimalPos.Unsigned.of_to.
    + rewrite <- DecimalPos.Unsigned.to_of, DecimalPos.Unsigned.of_to.
      reflexivity.
Qed.

End Decimal.

(** *** The quotient by sixty *)

Lemma nearest_even_cases (num den : Z) :
  0 < den ->
  (JS.nearest_even num den = num / den /\ 2 * (num mod den) <= den)
  \/ (JS.nearest_even num den = num / den + 1 /\ den <= 2 * (num mod den)).
Proof.
  intros Hden. unfold JS.nearest_even.
  destruct (Z.ltb_spec (2 * (num mod den)) den); [left; split; [reflexivity | lia]|].
  destruct (Z.ltb_spec den (2 * (num mod den))); [right; split; [reflexivity | lia]|].
  destruct (Z.even (num / den)); [left | right]; split; try reflexivity; lia.
Qed.

(** On a grid of step [1/P] with [P >= 32], rounding [s/60] to the grid
    and taking the floor gives the integer quotient: the fraction of
    [s/60] is at most [59/60], which is more than half a step below the
    next integer. *)
Lemma floor_of_rounded_sixtieth (s P : Z) :
  0 <= s -> 32 <= P -> JS.nearest_even (s * P) 60 / P = s / 60.
Proof.
  intros Hs HP.
  pose proof (Z.div_mod s 60 ltac:(lia)) as Hdm.
  pose proof (Z.mod_pos_bound s 60 ltac:(lia)) as Hk.
  pose proof (Z.div_mod (s * P) 60 ltac:(lia)) as HdmP.
  pose proof (Z.mod_pos_bound (s * P) 60 ltac:(lia)) as Hr.
  assert (HsP : s * P = 60 * (s / 60 * P) + s mod 60 * P) by nia.
  assert (HkP : 0 <= s mod 60 * P <= 59 * P) by nia.
  set (q := s / 60) in *. set (qP := q * P) in *. set (kP := s mod 60 * P) in *.
  set (F := s * P / 60) in *. set (r := (s * P) mod 60) in *.
  symmetry. apply Z.div_unique with (r := JS.nearest_even (s * P) 60 - qP).
  - left. destruct (nearest_even_cases (s * P) 60 ltac:(lia)) as [[-> H]|[-> H]];
      fold F; fold r in H; lia.
  - subst qP. lia.
Qed.

(** A safe integer divided by sixty has its last place at [2^-5] or
    finer. *)
Lemma ulp_exponent_safe (p : positive) :
  Z.pos p <= JS.MAX_SAFE_INTEGER -> -1074 <= JS.ulp_exponent (Z.pos p) 60 <= -5.
Proof.
  intros Hp. unfold JS.MAX_SAFE_INTEGER in Hp.
  assert (Hlog : 0 <= Z.log2 (Z.pos p) <= 52).
  { split; [apply Z.log2_nonneg|].
    assert (Z.log2 (Z.pos p) < 53) by (apply Z.log2_lt_pow2; lia). lia. }
  unfold JS.ulp_exponent.
  change (Z.log2 60) with 5.
  destruct (JS.scaled (Z.pos p) 60 (Z.log2 (Z.pos p) - 5 - 52)) as [num den].
  destruct (num / den <? 2 ^ 52); lia.
Qed.

(** On the safe integers the rounded quotient has the exact floor. *)
Lemma floor_div_safe (s : Z) :
  0 <= s <= JS.MAX_SAFE_INTEGER -> JS.floor (JS.div s 60) = s / 60.
Proof.
  intros [Hs Hmax]. destruct s as [|p|p]; [reflexivity | | lia].
  unfold JS.floor, JS.div, JS.round64. cbn [Qnum Qden]. unfold JS.round_positive.
  pose proof (ulp_exponent_safe p Hmax) as He.
  set (e := JS.ulp_exponent (Z.pos p) 60) in *.
  unfold JS.scaled. destruct (Z.leb_spec 0 e); [lia|].
  assert (HP : 32 <= 2 ^ (- e)).
  { change 32 with (2 ^ 5). apply Z.pow_le_mono_r; lia. }
  unfold Qfloor. rewrite Z2Pos.id by lia.
  apply floor_of_rounded_sixtieth; lia.
Qed.

(** [toString] of a non-negative integer is its decimal numeral. *)
Lemma toString_decimal (m : Z) : 0 <= m -> decimal_of m (JS.toString m).
Proof.
  intros Hm. destruct (toString_nonneg m Hm) as (u & -> & Hnil & Hval & Hnorm).
  split.
  - unfold decimal_value.
    destruct (NilEmpty.string_of_uint u) eqn:E.
    + destruct u; discriminate || now elim Hnil.
    + rewrite <- E, decimal_value_from_zero. now rewrite Hval.
  - rewrite <- Hnorm. apply unorm_canonical.
Qed.

Lemma split_colon_toString (m : Z) (rest : string) :
  0 <= m ->
  split_colon (JS.toString m ++ String ":" rest) = Some (JS.toString m, rest).
Proof.
  intros Hm. destruct (toString_nonneg m Hm) as (u & -> & _).
  apply split_colon_numeral.
Qed.

Lemma seconds_field_all : forallb seconds_field_ok (seq 0 60) = true.
Proof. vm_compute. reflexivity. Qed.

Lemma seconds_field (r : Z) :
  0 <= r < 60 ->
  JS.padStart 2 "0" (JS.toString r) = two_digits r
  /\ decimal_value (two_digits r) = Some r.
Proof.
  intros Hr.
  assert (Hin : In (Z.to_nat r) (seq 0 60)) by (apply in_seq; lia).
  pose proof (proj1 (forallb_forall _ _) seconds_field_all _ Hin) as H.
  unfold seconds_field_ok in H. rewrite Z2Nat.id in H by lia.
  apply andb_prop in H. destruct H as [H1 H2].
  apply String.eqb_eq in H1. split; [exact H1|].
  destruct (decimal_value (two_digits r)); [|discriminate].
  apply Z.eqb_eq in H2. now subst.
Qed.

(** C10, as the code has it. For every non-negative integer [s] up to
    [Number.MAX_SAFE_INTEGER], [formatTime s] is the decimal numeral of
    [s / 60], a colon, and [s mod 60] written with exactly two decimal
    digits; reading it back as minutes times sixty plus seconds gives
    [s]. *)
Theorem formatTime_correct (s : Z) :
  0 <= s <= JS.MAX_SAFE_INTEGER ->
  formatTime s = JS.toString (s / 60) ++ ":" ++ two_digits (s mod 60)
  /\ decimal_of (s / 60) (JS.toString (s / 60))
  /\ decimal_value (two_digits (s mod 60)) = Some (s mod 60)
  /\ parseTime (formatTime s) = Some s.
Proof.
  intros Hs.
  assert (Hq : 0 <= s / 60) by (apply Z.div_pos; lia).
  assert (Hr : 0 <= s mod 60 < 60) by (apply Z.mod_pos_bound; lia).
  destruct (seconds_field _ Hr) as [Hpad Hsec].
  assert (Hfmt : formatTime s = JS.toString (s / 60) ++ ":" ++ two_digits (s mod 60)).
  { unfold formatTime, JS.rem. rewrite (floor_div_safe s Hs).
    rewrite Z.rem_mod_nonneg by lia. now rewrite Hpad. }
  repeat split.
  - exact Hfmt.
  - apply toString_decimal, Hq.
  - apply toString_decimal, Hq.
  - exact Hsec.
  - rewrite Hfmt. unfold parseTime.
    change (":" ++ two_digits (s mod 60)) with (String ":" (two_digits (s mod 60))).
    rewrite split_colon_toString by exact Hq.
    rewrite (proj1 (toString_decimal _ Hq)), Hsec.
    f_equal. pose proof (Z.div_mod s 60). lia.
Qed.

Lemma formatTime_correct_witness :
  0 <= 125 <= JS.MAX_SAFE_INTEGER
  /\ formatTime 125 = "2:05" /\ parseTime (formatTime 125) = Some 125.
Proof.
  assert (H : 0 <= 125 <= JS.MAX_SAFE_INTEGER) by (vm_compute; split; discriminate).
  split; [exact H|].
  destruct (formatTime_correct 125 H) as (Hf & _ & _ & Hp).
  split; [exact Hf | exact Hp].
Defined.

(** C10, as worded, fails beyond the safe integers. The number
    67553994410557496 is held exactly; its quotient by sixty,
    1125899906842624.93..., lies where binary64 numbers are a quarter
    apart and rounds up to 1125899906842625, so the minutes field is one
    too many and the string reads back sixty seconds more than the
    input. *)
Lemma formatTime_beyond_safe :
  JS.representable 67553994410557496 = true
  /\ 67553994410557496 / 60 = 1125899906842624
  /\ formatTime 67553994410557496 = "1125899906842625:56"
  /\ parseTime (formatTime 67553994410557496) = Some (67553994410557496 + 60)
  /\ ~ worded_formatTime.
Proof.
  do 4 (split; [vm_compute; reflexivity|]).
  intros H.
  destruct (H 67553994410557496 ltac:(lia) ltac:(vm_compute; reflexivity))
    as [_ Hback].
  vm_compute in Hback. discriminate Hback.
Qed.

(* ================================================================== *)
(** ** Reachable states *)

Lemma reachable_consistent (s : State) : reachable s -> consistent s.
Proof.
  induction 1 as [|s ev _ IH Hoff].
  - apply consistent_initial.
  - now apply consistent_step.
Qed.

Lemma reachable_run (evs : list Event) (s : State) :
  reachable s -> all_offered evs s = true -> reachable (run evs s).
Proof.
  revert s. induction evs as [|ev evs IH]; intros s Hreach Hall; [exact Hreach|].
  cbn [all_offered] in Hall. apply andb_prop in Hall. destruct Hall as [Hev Hall].
  cbn [run]. apply IH; [now apply reach_step | exact Hall].
Qed.

Lemma reachable_started : reachable started.
Proof. apply reach_step; [apply reach_initial | reflexivity]. Qed.

Lemma reachable_last_second : reachable last_second.
Proof.
  apply reachable_run; [exact reachable_started | vm_compute; reflexivity].
Qed.

(** Replace a reachable state by its fields, the two timers being what the
    effects left. *)
Ltac open_state H s :=
  apply reachable_consistent in H;
  let Hi := fresh "Hi" in
  let Hr := fresh "Hr" in
  destruct H as [Hi Hr ? ? ? ?];
  destruct s as [tx act st tr lk sh ts ti run];
  cbn [timeoutInterval sessionTimerRunning isActive lastKeystroke timeoutSeconds
       sessionTime timeRemaining text showSettings] in *;
  subst ti run.

(* ================================================================== *)
(** ** Inactivity expiry *)

Lemma expired_later (lk ts now now' : Z) :
  now <= now' -> expired lk ts now = true -> expired lk ts now' = true.
Proof.
  rewrite !expired_millis. intros Hle [H0 H]. split; [assumption | lia].
Qed.

(** C1, as the code has it. When the expiry test succeeds in an active
    session, the tick clears [text] and raises the erasure toast, and
    changes nothing else: the phase stays active and [lastKeystroke] keeps
    its value. With no edit in between, every later tick therefore finds
    the test true again and signals the erasure again. *)
Theorem expiry_clears_and_recurs (s : State) (now : Z) :
  reachable s -> isActive s = true ->
  expired (lastKeystroke s) (timeoutSeconds s) now = true ->
  let s' := step (TimeoutTick now) s in
  s' = with_text "" s
  /\ emitted (dispatch (TimeoutTick now)) s
     = [ToastError (deleted_message (timeoutSeconds s))]
  /\ lastKeystroke s' = lastKeystroke s /\ isActive s' = true
  /\ forall now', now <= now' ->
       step (TimeoutTick now') s' = s'
       /\ emitted (dispatch (TimeoutTick now')) s'
          = [ToastError (deleted_message (timeoutSeconds s))].
Proof.
  intros Hreach Hact Hexp. open_state Hreach s. subst act.
  js_eval. rewrite Hexp. js_eval. rewrite !Z.eqb_refl. js_eval.
  do 4 (split; [reflexivity|]).
  intros now' Hle. rewrite (expired_later _ _ _ _ Hle Hexp).
  js_eval. rewrite !Z.eqb_refl. split; reflexivity.
Qed.

Lemma expiry_clears_and_recurs_witness :
  reachable started /\ isActive started = true
  /\ expired (lastKeystroke started) (timeoutSeconds started) 9000 = true
  /\ text (step (TimeoutTick 9000) started) = ""
  /\ lastKeystroke (step (TimeoutTick 9000) started) = 1000
  /\ emitted (dispatch (TimeoutTick 10000)) (step (TimeoutTick 9000) started)
     = [ToastError (deleted_message 7)].
Proof.
  split; [exact reachable_started|]. do 2 (split; [reflexivity|]).
  destruct (expiry_clears_and_recurs started 9000 reachable_started eq_refl eq_refl)
    as (Hs & _ & Hlk & _ & Hagain).
  split; [rewrite Hs; reflexivity|]. split; [exact Hlk|].
  apply (Hagain 10000). lia.
Defined.

(** C1, as worded, fails: a session started at 1000 ms with the default
    timeout of 7 s; the tick at 9000 ms finds the text expired and leaves
    [lastKeystroke] at 1000, and the tick one second later signals the
    erasure once more. *)
Lemma expiry_does_not_reset :
  lastKeystroke (step (TimeoutTick 9000) started) = 1000
  /\ emitted (dispatch (TimeoutTick 10000)) (step (TimeoutTick 9000) started)
     = [ToastError (deleted_message 7)]
  /\ ~ worded_expiry_resets.
Proof.
  split; [reflexivity|]. split; [reflexivity|].
  intros H.
  destruct (H started 9000 reachable_started eq_refl eq_refl) as (_ & Hlk & _).
  vm_compute in Hlk. discriminate Hlk.
Qed.

(* ================================================================== *)
(** ** The session countdown *)

(** C2, as the code has it. A firing of the session timer in an active
    session takes exactly one second off [timeRemaining], whatever time has
    passed; when [timeRemaining] was at most one it becomes zero and
    [endSession(true)] runs. Outside an active session the timer is not
    running and a tick does nothing. *)
Theorem tick_decrements_by_one (s : State) :
  reachable s ->
  (isActive s = true -> 1 < timeRemaining s ->
   step SessionTick s = with_timeRemaining (timeRemaining s - 1) s
   /\ emitted (dispatch SessionTick) s = [])
  /\ (isActive s = true -> timeRemaining s <= 1 ->
      step SessionTick s = with_timeRemaining 0 (exec (call (endSession true)) s)
      /\ timeRemaining (step SessionTick s) = 0
      /\ isActive (step SessionTick s) = false
      /\ emitted (dispatch SessionTick) s = emitted (call (endSession true)) s
      /\ emitted (dispatch SessionTick) s = [ToastSuccess completed_message])
  /\ (isActive s = false ->
      step SessionTick s = s /\ emitted (dispatch SessionTick) s = []).
Proof.
  intros Hreach. open_state Hreach s.
  split; [|split]; intros ->.
  - intros Hgt. js_eval. destruct (Z.leb_spec tr 1); [lia|].
    js_eval. rewrite !Z.eqb_refl. split; reflexivity.
  - intros Hle. js_eval. destruct (Z.leb_spec tr 1); [|lia].
    js_eval. repeat split; reflexivity.
  - js_eval. rewrite !Z.eqb_refl. split; reflexivity.
Qed.

Lemma tick_decrements_by_one_witness :
  reachable started /\ isActive started = true /\ 1 < timeRemaining started
  /\ timeRemaining (step SessionTick started) = 899.
Proof.
  split; [exact reachable_started|]. do 2 (split; [reflexivity|]).
  destruct (tick_decrements_by_one started reachable_started) as (H & _ & _).
  destruct (H eq_refl eq_refl) as [Hs _]. rewrite Hs. reflexivity.
Defined.

(** C2, as worded, fails: in the session started above (900 s remaining),
    a tick that fires 3000 ms after the previous one leaves 899 s, where
    the elapsed whole seconds would leave 897. *)
Lemma tick_ignores_elapsed :
  timeRemaining started = 900
  /\ timeRemaining (step SessionTick started) = 899
  /\ worded_tick_remaining 1000 4000 (timeRemaining started) = 897
  /\ ~ worded_tick_by_elapsed.
Proof.
  do 3 (split; [reflexivity|]).
  intros H.
  specialize (H started 1000 4000 reachable_started eq_refl).
  assert (Hle : 1000 <= 4000) by lia.
  specialize (H Hle). vm_compute in H. discriminate H.
Qed.

(* ================================================================== *)
(** ** Ending a session *)

(** C3, as the code has it. [endSession] has no guard on the phase: a
    second call in a row throws nothing and leaves the state as the first
    call left it, but raises its session-ended toast again, two in all.
    What keeps the user from a second call is that the End button is no
    longer rendered. *)
Theorem endSession_twice (s : State) (c1 c2 : bool) :
  let s1 := exec (call (endSession c1)) s in
  (exists t, call (endSession c2) s1 = Returned tt s1 [t]
             /\ session_ended t = true)
  /\ count session_ended
       (emitted (call (endSession c1)) s ++ emitted (call (endSession c2)) s1)
     = 2%nat
  /\ offered ClickEnd s1 = false.
Proof.
  destruct s as [tx act st tr lk sh ts ti run].
  destruct act, c1, c2; js_run.
  all: split; [eexists; split; reflexivity | split; reflexivity].
Qed.

(** C3, as worded, fails: ending the session started above twice raises
    two session-ended toasts. *)
Lemma end_twice_two_toasts :
  (emitted (call (endSession false)) started
   ++ emitted (call (endSession false)) (exec (call (endSession false)) started))%list
  = [ToastInfo ended_message; ToastInfo ended_message]
  /\ ~ worded_end_once.
Proof.
  split; [reflexivity|].
  intros H.
  destruct (H started false false reachable_started eq_refl) as [_ Hc].
  vm_compute in Hc. discriminate Hc.
Qed.

(** C8. Ending a session, by the countdown reaching zero or by the End
    button while time remains, makes the session inactive and leaves
    [text] as it was; so does [endSession] itself, with either argument. *)
Theorem ending_keeps_text (s : State) :
  reachable s -> isActive s = true ->
  (timeRemaining s <= 1 ->
   isActive (step SessionTick s) = false
   /\ text (step SessionTick s) = text s
   /\ emitted (dispatch SessionTick) s = [ToastSuccess completed_message])
  /\ (isActive (step ClickEnd s) = false
      /\ text (step ClickEnd s) = text s
      /\ emitted (dispatch ClickEnd) s = [ToastInfo ended_message])
  /\ (forall completed,
        isActive (exec (call (endSession completed)) s) = false
        /\ text (exec (call (endSession completed)) s) = text s).
Proof.
  intros Hreach Hact. open_state Hreach s. subst act.
  split; [|split].
  - intros Hle. js_eval. destruct (Z.leb_spec tr 1); [|lia].
    js_eval. repeat split; reflexivity.
  - js_eval. repeat split; reflexivity.
  - intros []; js_eval; split; reflexivity.
Qed.

Lemma ending_keeps_text_witness :
  reachable last_second /\ isActive last_second = true
  /\ timeRemaining last_second <= 1 /\ text last_second = "draft"
  /\ isActive (step SessionTick last_second) = false
  /\ text (step SessionTick last_second) = "draft"
  /\ isActive (step ClickEnd last_second) = false
  /\ text (step ClickEnd last_second) = "draft".
Proof.
  split; [exact reachable_last_second|].
  split; [vm_compute; reflexivity|].
  assert (Hle : timeRemaining last_second <= 1) by (vm_compute; discriminate).
  split; [exact Hle|]. split; [vm_compute; reflexivity|].
  destruct (ending_keeps_text last_second reachable_last_second
              ltac:(vm_compute; reflexivity))
    as (Htick & (Ha & Ht & _) & _).
  destruct (Htick Hle) as (Ha' & Ht' & _).
  split; [exact Ha'|]. split; [rewrite Ht'; vm_compute; reflexivity|].
  split; [exact Ha|]. rewrite Ht. vm_compute. reflexivity.
Defined.

(* ------------------------------------------------------------------ *)

Lemma run_app (evs1 evs2 : list Event) (s : State) :
  run (evs1 ++ evs2) s = run evs2 (run evs1 s).
Proof.
  revert s. induction evs1 as [|ev evs1 IH]; intros s; [reflexivity|].
  cbn [run app]. apply IH.
Qed.

(** A clock event keeps the session length and lets [timeRemaining] only
    go down, never below zero. *)
Lemma tick_step_within (d : Z) (ev : Event) (s : State) :
  countdown_within d s -> is_tick ev = true ->
  countdown_within d (step ev s)
  /\ timeRemaining (step ev s) <= timeRemaining s.
Proof.
  intros (Hc & Hd & Hle) Htick.
  assert (Hc' : consistent (step ev s))
    by (apply consistent_step; [exact Hc | now destruct ev]).
  assert (H : sessionTime (step ev s) = sessionTime s
              /\ timeRemaining (step ev s) <= timeRemaining s).
  { destruct Hc as [Hi Hr _ _ Hn _].
    destruct s as [tx act st tr lk sh ts ti run];
      cbn in Hi, Hr, Hn; subst ti run.
    destruct ev; try discriminate Htick; destruct act; js_run;
      split; try reflexivity; lia. }
  destruct H as [Hst Hdec].
  split; [|exact Hdec].
  split; [exact Hc'|]. split; [rewrite Hst; exact Hd | lia].
Qed.

Lemma run_ticks_within (d : Z) (evs : list Event) (s : State) :
  countdown_within d s -> forallb is_tick evs = true ->
  countdown_within d (run evs s)
  /\ timeRemaining (run evs s) <= timeRemaining s.
Proof.
  revert s. induction evs as [|ev evs IH]; intros s Hw Hall.
  - split; [exact Hw | cbn; lia].
  - cbn [forallb] in Hall. apply andb_prop in Hall. destruct Hall as [Hev Hall].
    destruct (tick_step_within d ev s Hw Hev) as [Hw' Hdec].
    destruct (IH _ Hw' Hall) as [Hw'' Hdec'].
    cbn [run]. split; [exact Hw'' | lia].
Qed.

(** C4. Through any sequence of clock events applied from an active
    session, [timeRemaining] never goes up from one point of the sequence
    to a later one, and stays between zero and the session length in
    seconds. *)
Theorem remaining_nonincreasing_bounded (s : State) (evs1 evs2 : list Event) :
  reachable s -> isActive s = true ->
  forallb is_tick (evs1 ++ evs2) = true ->
  timeRemaining (run (evs1 ++ evs2) s) <= timeRemaining (run evs1 s)
  /\ 0 <= timeRemaining (run (evs1 ++ evs2) s) <= sessionTime s * 60.
Proof.
  intros Hreach Hact Hall.
  pose proof (reachable_consistent s Hreach) as Hc.
  assert (Hw : countdown_within (sessionTime s * 60) s).
  { split; [exact Hc|]. split; [reflexivity|].
    apply (cons_remaining_bound s Hc Hact). }
  rewrite forallb_app in Hall. apply andb_prop in Hall. destruct Hall as [H1 H2].
  destruct (run_ticks_within _ evs1 s Hw H1) as [Hw1 _].
  destruct (run_ticks_within _ evs2 _ Hw1 H2) as [(Hc2 & _ & Hle2) Hdec].
  rewrite run_app. split; [exact Hdec|].
  split; [apply (cons_remaining_nonneg _ Hc2) | exact Hle2].
Qed.

Lemma remaining_nonincreasing_bounded_witness :
  reachable started /\ isActive started = true
  /\ forallb is_tick ([SessionTick; TimeoutTick 2000] ++ [SessionTick]) = true
  /\ timeRemaining (run ([SessionTick; TimeoutTick 2000] ++ [SessionTick]) started)
     <= timeRemaining (run [SessionTick; TimeoutTick 2000] started)
  /\ 0 <= timeRemaining (run ([SessionTick; TimeoutTick 2000] ++ [SessionTick]) started)
       <= sessionTime started * 60.
Proof.
  split; [exact reachable_started|]. do 2 (split; [reflexivity|]).
  exact (remaining_nonincreasing_bounded started [SessionTick; TimeoutTick 2000]
           [SessionTick] reachable_started eq_refl eq_refl).
Defined.

(* ================================================================== *)
(** ** Starting a session *)

(** C6, as the code has it. [startSession] has no guard and never throws.
    From a state that is not active it makes the session active, lets the
    session effect set [timeRemaining] to [sessionTime * 60], empties
    [text], sets [lastKeystroke] to the current time and raises the
    session-started toast. The Start button is rendered exactly when the
    session is not active. *)
Theorem startSession_unguarded (s : State) (now : Z) :
  (exists out,
     call (startSession now) s
     = Returned tt (exec (call (startSession now)) s) out)
  /\ (isActive s = false ->
      let s' := step (ClickStart now) s in
      isActive s' = true /\ timeRemaining s' = sessionTime s * 60
      /\ text s' = "" /\ lastKeystroke s' = now
      /\ emitted (dispatch (ClickStart now)) s
         = [ToastSuccess (started_message (timeoutSeconds s))])
  /\ offered (ClickStart now) s = negb (isActive s).
Proof.
  destruct s as [tx act st tr lk sh ts ti run].
  split; [|split; [|reflexivity]].
  - destruct act; js_run; eexists; reflexivity.
  - cbn [isActive]. intros ->. js_run; repeat split; reflexivity.
Qed.

Lemma startSession_unguarded_witness :
  isActive initial = false
  /\ isActive (step (ClickStart 1000) initial) = true
  /\ timeRemaining (step (ClickStart 1000) initial) = 900
  /\ lastKeystroke (step (ClickStart 1000) initial) = 1000.
Proof.
  split; [reflexivity|].
  destruct (startSession_unguarded initial 1000) as (_ & H & _).
  destruct (H eq_refl) as (Ha & Hr & _ & Hl & _).
  split; [exact Ha|]. split; [exact Hr | exact Hl].
Defined.

(** C6, as worded, fails: called in the session started above,
    [startSession] returns normally. *)
Lemma start_while_active_returns :
  call (startSession 2000) started
  = Returned tt (with_lastKeystroke 2000
                   (with_timeoutInterval (Some (mkClosure 2000 7)) started))
      [ToastSuccess (started_message 7)]
  /\ ~ worded_start_guarded.
Proof.
  split; [reflexivity|].
  intros [H _].
  specialize (H started 2000 reachable_started eq_refl).
  vm_compute in H. discriminate H.
Qed.

(* ================================================================== *)
(** ** Editing *)

(** C7, as the code has it. [handleTextChange] has no guard and never
    throws: in every phase it sets [text] to the new value and
    [lastKeystroke] to the current time, and leaves the phase and
    [timeRemaining] alone. The textarea that calls it is rendered exactly
    when the session is active. *)
Theorem handleTextChange_unguarded (s : State) (value : string) (now : Z) :
  let s' := exec (call (handleTextChange value now)) s in
  call (handleTextChange value now) s = Returned tt s' []
  /\ text s' = value /\ lastKeystroke s' = now
  /\ isActive s' = isActive s /\ timeRemaining s' = timeRemaining s
  /\ offered (ChangeText value now) s = isActive s.
Proof.
  destruct s as [tx act st tr lk sh ts ti run].
  destruct act; js_run; repeat split; reflexivity.
Qed.

(** C7, as worded, fails: called on the freshly mounted component, which
    is not active, [handleTextChange] returns normally and has changed
    [text] and [lastKeystroke]. *)
Lemma edit_while_idle_returns :
  call (handleTextChange "abc" 5) initial
  = Returned tt (with_lastKeystroke 5 (with_text "abc" initial)) []
  /\ ~ worded_edit_guarded.
Proof.
  split; [reflexivity|].
  intros [H _].
  specialize (H initial "abc" 5 reach_initial eq_refl).
  vm_compute in H. discriminate H.
Qed.

(* ================================================================== *)
(** ** Settings *)

(** C9, as the code has it. The two slider callbacks have no guard and
    never throw: in any phase and for any value they store the value they
    are given. Values outside [5,180] minutes and [3,15] seconds are kept
    out by the sliders alone, and the Settings trigger is disabled while
    the session is active; hence the stored settings of every reachable
    state are within these bounds. *)
Theorem sliders_unguarded (s : State) (v : Z) :
  (exists out,
     call (onSessionTimeChange v) s
     = Returned tt (exec (call (onSessionTimeChange v)) s) out)
  /\ sessionTime (exec (call (onSessionTimeChange v)) s) = v
  /\ (exists out,
        call (onTimeoutChange v) s
        = Returned tt (exec (call (onTimeoutChange v)) s) out)
  /\ timeoutSeconds (exec (call (onTimeoutChange v)) s) = v
  /\ (offered (SlideSessionTime v) s = true ->
      MIN_SESSION_TIME <= v <= MAX_SESSION_TIME)
  /\ (offered (SlideTimeout v) s = true -> MIN_TIMEOUT <= v <= MAX_TIMEOUT)
  /\ offered OpenSettings s = negb (isActive s)
  /\ (reachable s ->
      MIN_SESSION_TIME <= sessionTime s <= MAX_SESSION_TIME
      /\ MIN_TIMEOUT <= timeoutSeconds s <= MAX_TIMEOUT).
Proof.
  split; [|split; [|split; [|split]]].
  1-4: destruct s as [tx act st tr lk sh ts ti run]; destruct act; js_run;
    try eexists; reflexivity.
  split; [|split; [|split; [reflexivity|]]].
  - cbn [offered]. intros H. split_offered H. lia.
  - cbn [offered]. intros H. split_offered H. lia.
  - intros Hreach. apply reachable_consistent in Hreach.
    split; [apply (cons_sessionTime s Hreach) | apply (cons_timeoutSeconds s Hreach)].
Qed.

Lemma sliders_unguarded_witness :
  offered (SlideSessionTime 30) (step OpenSettings initial) = true
  /\ MIN_SESSION_TIME <= 30 <= MAX_SESSION_TIME
  /\ sessionTime (exec (call (onSessionTimeChange 30)) (step OpenSettings initial)) = 30.
Proof.
  split; [reflexivity|].
  destruct (sliders_unguarded (step OpenSettings initial) 30)
    as (_ & Hst & _ & _ & Hb & _).
  split; [exact (Hb eq_refl) | exact Hst].
Defined.

(** C9, as worded, fails: in the session started above both callbacks
    return normally, and on the freshly mounted component they store
    values outside the bounds. *)
Lemma configure_returns :
  call (onTimeoutChange 10) started
  = Returned tt (with_timeoutInterval (Some (mkClosure 1000 10))
                   (with_timeoutSeconds 10 started)) []
  /\ call (onSessionTimeChange 999) initial
     = Returned tt (with_sessionTime 999 initial) []
  /\ call (onTimeoutChange 1) initial
     = Returned tt (with_timeoutSeconds 1 initial) []
  /\ ~ worded_configure_guarded.
Proof.
  do 3 (split; [reflexivity|]).
  intros [H _].
  destruct (H started 10 reachable_started eq_refl) as [_ H2].
  vm_compute in H2. discriminate H2.
Qed.

(* ================================================================== *)
(** ** Further invariants of the reachable states *)

Lemma well_timed_step (ev : Event) (s : State) :
  well_timed s -> offered ev s = true -> well_timed (step ev s).
Proof.
  intros (Hc & Hgrid & Hleft) Hoff.
  split; [now apply consistent_step|].
  destruct Hc as [Hi Hr Hst Hts Hn Hb].
  destruct s as [tx act st tr lk sh ts ti run];
    cbn in Hi, Hr, Hst, Hts, Hn, Hb, Hgrid, Hleft; subst ti run.
  unfold MIN_SESSION_TIME, MAX_SESSION_TIME, MIN_TIMEOUT, MAX_TIMEOUT in *.
  destruct ev, act; cbn in Hoff; try discriminate Hoff;
    unfold MIN_SESSION_TIME, MAX_SESSION_TIME, MIN_TIMEOUT, MAX_TIMEOUT in *;
    split_offered Hoff; js_run; subst.
  all: try (split; [assumption || lia | intros; (discriminate || lia)]).
  all: split; [Z.div_mod_to_equations; lia | intros; (discriminate || lia)].
Qed.

Lemma reachable_well_timed (s : State) : reachable s -> well_timed s.
Proof.
  induction 1 as [|s ev _ IH Hoff].
  - split; [apply consistent_initial|]. split; [reflexivity | discriminate].
  - now apply well_timed_step.
Qed.

(** The two intervals follow the session. In every reachable state the
    session timer runs exactly when the session is active, and the timeout
    interval exists exactly then, its [checkTimeout] holding the current
    [lastKeystroke] and [timeoutSeconds]: no timer outlives its session and
    no closure is stale. *)
Theorem timers_follow_session (s : State) :
  reachable s ->
  sessionTimerRunning s = isActive s
  /\ timeoutInterval s
     = if isActive s
       then Some (mkClosure (lastKeystroke s) (timeoutSeconds s))
       else None.
Proof.
  intros Hreach. apply reachable_consistent in Hreach.
  split; [apply (cons_session s Hreach) | apply (cons_timeout s Hreach)].
Qed.

Lemma timers_follow_session_witness :
  reachable last_second
  /\ sessionTimerRunning last_second = true
  /\ timeoutInterval last_second = Some (mkClosure 1500 7).
Proof.
  split; [exact reachable_last_second|].
  destruct (timers_follow_session last_second reachable_last_second) as [Hr Hi].
  split; [rewrite Hr | rewrite Hi]; vm_compute; reflexivity.
Defined.

Lemma capped_step (ev : Event) (s : State) :
  consistent s -> timeRemaining s <= MAX_SESSION_TIME * 60 ->
  offered ev s = true ->
  timeRemaining (step ev s) <= MAX_SESSION_TIME * 60.
Proof.
  intros [Hi Hr Hst Hts Hn Hb] Hcap Hoff.
  destruct s as [tx act st tr lk sh ts ti run];
    cbn in Hi, Hr, Hst, Hts, Hn, Hb, Hcap; subst ti run.
  unfold MIN_SESSION_TIME, MAX_SESSION_TIME, MIN_TIMEOUT, MAX_TIMEOUT in *.
  destruct ev, act; cbn in Hoff; try discriminate Hoff;
    unfold MIN_SESSION_TIME, MAX_SESSION_TIME, MIN_TIMEOUT, MAX_TIMEOUT in *;
    split_offered Hoff; js_run; subst; lia.
Qed.

Lemma reachable_capped (s : State) :
  reachable s -> timeRemaining s <= MAX_SESSION_TIME * 60.
Proof.
  induction 1 as [|s ev Hreach IH Hoff]; [discriminate|].
  apply capped_step; [now apply reachable_consistent | exact IH | exact Hoff].
Qed.

Lemma reachable_shortened : reachable shortened.
Proof.
  apply reachable_run; [exact reach_initial | vm_compute; reflexivity].
Qed.

(** What holds of every committed state, the render between a handler and
    its effects included. *)
Lemma committed_settings (s : State) :
  committed s ->
  sessionTime s mod 5 = 0
  /\ MIN_SESSION_TIME <= sessionTime s <= MAX_SESSION_TIME
  /\ 0 <= timeRemaining s <= MAX_SESSION_TIME * 60.
Proof.
  intros Hcom. destruct Hcom as [s Hreach | s ev Hreach Hoff].
  - destruct (reachable_well_timed s Hreach) as (Hc & Hgrid & _).
    pose proof (reachable_capped s Hreach) as Hcap.
    split; [exact Hgrid|]. split; [apply (cons_sessionTime s Hc)|].
    split; [apply (cons_remaining_nonneg s Hc) | exact Hcap].
  - destruct (reachable_well_timed s Hreach) as (Hc & Hgrid & _).
    pose proof (reachable_capped s Hreach) as Hcap.
    destruct Hc as [Hi Hr Hst Hts Hn Hb].
    destruct s as [tx act st tr lk sh ts ti run];
      cbn in Hi, Hr, Hst, Hts, Hn, Hb, Hgrid, Hcap; subst ti run.
    unfold render_before_effects.
    unfold MIN_SESSION_TIME, MAX_SESSION_TIME, MIN_TIMEOUT, MAX_TIMEOUT in *.
    destruct ev, act; cbn in Hoff; try discriminate Hoff;
      unfold MIN_SESSION_TIME, MAX_SESSION_TIME, MIN_TIMEOUT, MAX_TIMEOUT in *;
      split_offered Hoff; js_run; subst.
    all: split; [assumption || (Z.div_mod_to_equations; lia) | split; lia].
Qed.

(** The time an active session has left. Between events the session
    length is a multiple of five minutes and an active session has between
    one second and its full length left. In every committed state, the
    render between a handler and its effects included, the session length
    is a multiple of five within its bounds and the remaining time lies
    between zero and the 10800 seconds of the longest session; but in the
    render right after a start the session is active with the remaining
    time of before, which can be zero (first start) or more than the
    session lasts (restart after shortening). *)
Theorem active_session_has_time :
  (forall s, reachable s ->
     sessionTime s mod 5 = 0
     /\ (isActive s = true -> 1 <= timeRemaining s <= sessionTime s * 60))
  /\ (forall s, committed s ->
        sessionTime s mod 5 = 0
        /\ MIN_SESSION_TIME <= sessionTime s <= MAX_SESSION_TIME
        /\ 0 <= timeRemaining s <= MAX_SESSION_TIME * 60)
  /\ (exists c, committed c /\ isActive c = true /\ timeRemaining c = 0)
  /\ (exists c, committed c /\ isActive c = true
                 /\ sessionTime c * 60 < timeRemaining c).
Proof.
  split; [|split; [exact committed_settings|split]].
  - intros s Hreach.
    destruct (reachable_well_timed s Hreach) as (Hc & Hgrid & Hleft).
    split; [exact Hgrid|]. intros Hact.
    split; [apply Hleft, Hact | apply (cons_remaining_bound s Hc Hact)].
  - exists (render_before_effects (ClickStart 1000) initial).
    split; [|split; reflexivity].
    apply committed_before_effects; [exact reach_initial | reflexivity].
  - exists (render_before_effects (ClickStart 2000) shortened).
    split; [|split; vm_compute; reflexivity].
    apply committed_before_effects;
      [exact reachable_shortened | vm_compute; reflexivity].
Qed.

Lemma active_session_has_time_witness :
  reachable last_second /\ isActive last_second = true
  /\ 1 <= timeRemaining last_second <= sessionTime last_second * 60
  /\ committed (render_before_effects (ClickStart 2000) shortened)
  /\ timeRemaining (render_before_effects (ClickStart 2000) shortened)
     <= MAX_SESSION_TIME * 60.
Proof.
  split; [exact reachable_last_second|].
  assert (Hact : isActive last_second = true) by (vm_compute; reflexivity).
  split; [exact Hact|].
  destruct active_session_has_time as (Hsettled & Hcommitted & _).
  split; [exact (proj2 (Hsettled last_second reachable_last_second) Hact)|].
  assert (Hc : committed (render_before_effects (ClickStart 2000) shortened)).
  { apply committed_before_effects;
      [exact reachable_shortened | vm_compute; reflexivity]. }
  split; [exact Hc|].
  exact (proj2 (proj2 (proj2 (Hcommitted _ Hc)))).
Defined.

(* ================================================================== *)
(** ** The clock outside a session *)

Lemma idle_tick (ev : Event) (s : State) :
  consistent s -> isActive s = false -> is_tick ev = true ->
  dispatch ev s = Returned tt s [].
Proof.
  intros [Hi Hr _ _ _ _] Hact Htick.
  destruct s as [tx act st tr lk sh ts ti run]; cbn in Hi, Hr, Hact.
  subst act ti run.
  destruct ev; try discriminate Htick; js_run; reflexivity.
Qed.

(** While no session is active, for instance once one has ended, no firing
    of either interval changes anything or raises a toast: the state after
    any list of clock events is the state before. *)
Theorem idle_clock_is_silent (s : State) (evs : list Event) :
  reachable s -> isActive s = false -> forallb is_tick evs = true ->
  run evs s = s /\ run_output evs s = [].
Proof.
  intros Hreach Hact. apply reachable_consistent in Hreach.
  induction evs as [|ev evs IH]; intros Hall; [split; reflexivity|].
  cbn [forallb] in Hall. apply andb_prop in Hall. destruct Hall as [Hev Hall].
  pose proof (idle_tick ev s Hreach Hact Hev) as Hd.
  cbn [run run_output]. unfold step, exec, emitted. rewrite Hd.
  cbn [state_of output_of]. destruct (IH Hall) as [H1 H2].
  split; [exact H1 | rewrite H2; reflexivity].
Qed.

Lemma idle_clock_is_silent_witness :
  reachable (step ClickEnd last_second)
  /\ isActive (step ClickEnd last_second) = false
  /\ text (run [TimeoutTick 999000; SessionTick] (step ClickEnd last_second))
     = "draft"
  /\ run_output [TimeoutTick 999000; SessionTick] (step ClickEnd last_second) = [].
Proof.
  assert (Hr : reachable (step ClickEnd last_second)).
  { apply reach_step; [exact reachable_last_second | vm_compute; reflexivity]. }
  assert (Hact : isActive (step ClickEnd last_second) = false)
    by (vm_compute; reflexivity).
  split; [exact Hr|]. split; [exact Hact|].
  destruct (idle_clock_is_silent _ [TimeoutTick 999000; SessionTick] Hr Hact eq_refl)
    as [Hs Ho].
  split; [rewrite Hs; vm_compute; reflexivity | exact Ho].
Defined.

(* ================================================================== *)
(** ** Typing against the timeout *)

(** After a keystroke at time [t] in an active session, the timeout tick
    at time [now] erases the text exactly when more than [timeoutSeconds]
    seconds have passed since [t] (and [t] is not the zero that stands for
    no keystroke); otherwise the tick leaves the state as the keystroke
    left it, text included, and raises nothing. *)
Theorem edit_then_tick (s : State) (value : string) (t now : Z) :
  reachable s -> isActive s = true ->
  let s1 := step (ChangeText value t) s in
  text s1 = value
  /\ (t <> 0 -> 1000 * timeoutSeconds s < now - t ->
      text (step (TimeoutTick now) s1) = ""
      /\ emitted (dispatch (TimeoutTick now)) s1
         = [ToastError (deleted_message (timeoutSeconds s))])
  /\ (t = 0 \/ now - t <= 1000 * timeoutSeconds s ->
      step (TimeoutTick now) s1 = s1
      /\ emitted (dispatch (TimeoutTick now)) s1 = []).
Proof.
  intros Hreach Hact. open_state Hreach s. subst act.
  assert (Hs1 : step (ChangeText value t)
                  (mkState tx true st tr lk sh ts (Some (mkClosure lk ts)) true)
                = mkState value true st tr t sh ts (Some (mkClosure t ts)) true).
  { js_run; subst; reflexivity. }
  cbv zeta. rewrite Hs1. cbn [text timeoutSeconds].
  split; [reflexivity|]. split.
  - intros Ht Hlate.
    assert (He : expired t ts now = true) by (apply expired_millis; split; assumption).
    js_eval. rewrite He. js_run. split; reflexivity.
  - intros Hearly.
    assert (He : expired t ts now = false).
    { apply not_true_iff_false. rewrite expired_millis. intros [Ht Hlate].
      destruct Hearly; [contradiction | lia]. }
    js_eval. rewrite He. js_run. split; reflexivity.
Qed.

Lemma edit_then_tick_witness :
  reachable started /\ isActive started = true
  /\ text (step (TimeoutTick 8500) (step (ChangeText "draft" 1500) started)) = "draft"
  /\ text (step (TimeoutTick 8501) (step (ChangeText "draft" 1500) started)) = "".
Proof.
  split; [exact reachable_started|]. split; [reflexivity|].
  destruct (edit_then_tick started "draft" 1500 8500 reachable_started eq_refl)
    as (_ & _ & Hkeep).
  destruct (edit_then_tick started "draft" 1500 8501 reachable_started eq_refl)
    as (_ & Herase & _).
  assert (Hin : 1500 = 0 \/ 8500 - 1500 <= 1000 * timeoutSeconds started)
    by (right; vm_compute; discriminate).
  assert (Hout : 1000 * timeoutSeconds started < 8501 - 1500)
    by (vm_compute; reflexivity).
  split.
  - transitivity (text (step (ChangeText "draft" 1500) started)).
    + exact (f_equal text (proj1 (Hkeep Hin))).
    + vm_compute. reflexivity.
  - refine (proj1 (Herase _ Hout)). discriminate.
Defined.

(* ================================================================== *)
(** ** A whole session of the countdown *)

Lemma run_output_app (evs1 evs2 : list Event) (s : State) :
  run_output (evs1 ++ evs2) s
  = (run_output evs1 s ++ run_output evs2 (run evs1 s))%list.
Proof.
  revert s. induction evs1 as [|ev evs1 IH]; intros s; [reflexivity|].
  cbn [run run_output app]. rewrite IH. apply app_assoc.
Qed.

Lemma tick_before_last (s : State) :
  consistent s -> isActive s = true -> 1 < timeRemaining s ->
  dispatch SessionTick s
  = Returned tt (with_timeRemaining (timeRemaining s - 1) s) [].
Proof.
  intros [Hi Hr _ _ _ _] Hact Hgt.
  destruct s as [tx act st tr lk sh ts ti run]; cbn in Hi, Hr, Hact, Hgt.
  subst act ti run. js_eval. destruct (Z.leb_spec tr 1); [lia|].
  js_run. reflexivity.
Qed.

Lemma tick_last (s : State) :
  consistent s -> isActive s = true -> timeRemaining s <= 1 ->
  dispatch SessionTick s
  = Returned tt
      (mkState (text s) false (sessionTime s) 0 (lastKeystroke s)
         (showSettings s) (timeoutSeconds s) None false)
      [ToastSuccess completed_message].
Proof.
  intros [Hi Hr _ _ _ _] Hact Hle.
  destruct s as [tx act st tr lk sh ts ti run]; cbn in Hi, Hr, Hact, Hle.
  subst act ti run. js_eval. destruct (Z.leb_spec tr 1); [|lia].
  js_run. reflexivity.
Qed.

Lemma countdown_run (k : nat) (s : State) :
  consistent s -> isActive s = true -> Z.of_nat k < timeRemaining s ->
  run (repeat SessionTick k) s
  = with_timeRemaining (timeRemaining s - Z.of_nat k) s
  /\ run_output (repeat SessionTick k) s = [].
Proof.
  revert s. induction k as [|k IH]; intros s Hc Hact Hlt.
  - cbn [repeat run run_output]. rewrite Z.sub_0_r. destruct s; split; reflexivity.
  - pose proof (tick_before_last s Hc Hact ltac:(lia)) as Hd.
    assert (Hs : step SessionTick s = with_timeRemaining (timeRemaining s - 1) s)
      by (unfold step, exec; rewrite Hd; reflexivity).
    assert (Hc' : consistent (step SessionTick s))
      by (apply consistent_step; [exact Hc | reflexivity]).
    cbn [repeat run run_output]. unfold emitted. rewrite Hd. cbn [output_of app].
    rewrite Hs in Hc' |- *.
    destruct (IH (with_timeRemaining (timeRemaining s - 1) s) Hc') as [Hrun Hout].
    + destruct s; exact Hact.
    + destruct s; cbn in *; lia.
    + rewrite Hrun, Hout. split; [|reflexivity].
      destruct s; cbn. unfold with_timeRemaining; cbn. f_equal. lia.
Qed.

Lemma consistent_ticks (k : nat) (s : State) :
  consistent s -> consistent (run (repeat SessionTick k) s).
Proof.
  revert s. induction k as [|k IH]; intros s Hc; [exact Hc|].
  cbn [repeat run]. apply IH. apply consistent_step; [exact Hc | reflexivity].
Qed.

(** A session runs for exactly as many firings of the session timer as it
    has seconds left. With [r] seconds remaining, each of the first
    [r - 1] firings only takes one second off and raises nothing; the
    [r]-th ends the session with the congratulation toast, zero seconds
    left and the text untouched. *)
Theorem session_lasts_full_length (s : State) :
  reachable s -> isActive s = true ->
  (forall k : nat,
     Z.of_nat k < timeRemaining s ->
     run (repeat SessionTick k) s
     = with_timeRemaining (timeRemaining s - Z.of_nat k) s
     /\ run_output (repeat SessionTick k) s = [])
  /\ (let n := Z.to_nat (timeRemaining s) in
      isActive (run (repeat SessionTick n) s) = false
      /\ timeRemaining (run (repeat SessionTick n) s) = 0
      /\ text (run (repeat SessionTick n) s) = text s
      /\ run_output (repeat SessionTick n) s = [ToastSuccess completed_message]).
Proof.
  intros Hreach Hact.
  destruct (reachable_well_timed s Hreach) as (Hc & _ & Hleft).
  specialize (Hleft Hact).
  split; [intros k Hk; now apply countdown_run|].
  cbv zeta.
  replace (Z.to_nat (timeRemaining s)) with (S (Z.to_nat (timeRemaining s - 1)))
    by lia.
  cbn [repeat]. rewrite repeat_cons.
  destruct (countdown_run (Z.to_nat (timeRemaining s - 1)) s Hc Hact ltac:(lia))
    as [Hrun Hout].
  rewrite Z2Nat.id in Hrun by lia.
  replace (timeRemaining s - (timeRemaining s - 1)) with 1 in Hrun by lia.
  rewrite run_app, run_output_app, Hrun, Hout.
  assert (Hc1 : consistent (with_timeRemaining 1 s))
    by (rewrite <- Hrun; apply consistent_ticks, Hc).
  pose proof (tick_last (with_timeRemaining 1 s) Hc1) as Hd.
  cbn [run run_output]. unfold step, exec, emitted.
  rewrite Hd; destruct s; cbn in *; try assumption; try lia.
  repeat split; reflexivity.
Qed.

Lemma session_lasts_full_length_witness :
  reachable started /\ isActive started = true
  /\ timeRemaining (run (repeat SessionTick 899) started) = 1
  /\ isActive (run (repeat SessionTick 899) started) = true
  /\ isActive (run (repeat SessionTick 900) started) = false
  /\ run_output (repeat SessionTick 900) started = [ToastSuccess completed_message].
Proof.
  split; [exact reachable_started|]. split; [reflexivity|].
  destruct (session_lasts_full_length started reachable_started eq_refl)
    as [Hbefore Hend].
  destruct (Hbefore 899%nat ltac:(vm_compute; reflexivity)) as [Hrun _].
  split; [rewrite Hrun; vm_compute; reflexivity|].
  split; [rewrite Hrun; vm_compute; reflexivity|].
  destruct Hend as (Ha & _ & _ & Ho).
  split; [exact Ha | exact Ho].
Defined.

(* ================================================================== *)
(** ** What touches the text *)

(** The text after any event, in a reachable state: starting a session
    empties it, an edit replaces it, a timeout tick empties it exactly when
    the session is active and the inactivity has expired, and nothing else
    (ending, the session timer, the settings) changes it. *)
Theorem text_after_event (s : State) (ev : Event) :
  reachable s ->
  text (step ev s)
  = match ev with
    | ClickStart _ => ""
    | ChangeText value _ => value
    | TimeoutTick now =>
        if isActive s && expired (lastKeystroke s) (timeoutSeconds s) now
        then "" else text s
    | _ => text s
    end.
Proof.
  intros Hreach. open_state Hreach s.
  destruct ev, act; js_run; reflexivity.
Qed.

Lemma text_after_event_witness :
  reachable last_second
  /\ text (step (TimeoutTick 8000) last_second) = "draft"
  /\ text (step (TimeoutTick 9000) last_second) = ""
  /\ text (step SessionTick last_second) = "draft".
Proof.
  split; [exact reachable_last_second|].
  split; [|split].
  - rewrite (text_after_event last_second (TimeoutTick 8000) reachable_last_second).
    vm_compute. reflexivity.
  - rewrite (text_after_event last_second (TimeoutTick 9000) reachable_last_second).
    vm_compute. reflexivity.
  - rewrite (text_after_event last_second SessionTick reachable_last_second).
    vm_compute. reflexivity.
Defined.

(* ================================================================== *)
(** ** The progress bar *)

(** The progress of an active session as one fraction. *)
Lemma progress_fraction (a : Z) (b : positive) :
  (inject_Z a / inject_Z (Z.pos b) * inject_Z 100 == (100 * a) # b)%Q.
Proof.
  unfold Qeq, Qdiv, Qmult, Qinv, inject_Z. cbn [Qnum Qden]. lia.
Qed.

Lemma progress_active (s : State) :
  isActive s = true -> 0 < sessionTime s ->
  (progressPercentage s
   == (100 * (sessionTime s * 60 - timeRemaining s)) # Z.to_pos (sessionTime s * 60))%Q.
Proof.
  intros Hact Hpos. unfold progressPercentage. rewrite Hact.
  destruct (sessionTime s * 60) as [|b|b] eqn:E; try lia.
  apply progress_fraction.
Qed.

(** The progress shown. Between events it is never negative and never
    reaches one hundred: it is zero while no session is active and right
    after a start, and stays below one hundred as long as the session is
    active. In every committed state, the render between a handler and its
    effects included, it lies between -3500 and 100, and both ends are
    met in the render right after a start: 100 on the first start, -3500
    on a restart after shortening a three-hour session to five minutes. *)
Theorem progress_within_bounds :
  (forall s, reachable s ->
     (0 <= progressPercentage s)%Q /\ (progressPercentage s < 100)%Q
     /\ (isActive s = false -> progressPercentage s = 0%Q)
     /\ (isActive s = true -> timeRemaining s = sessionTime s * 60 ->
         (progressPercentage s == 0)%Q))
  /\ (forall s, committed s ->
        (inject_Z (-3500) <= progressPercentage s)%Q /\ (progressPercentage s <= 100)%Q)
  /\ (exists c, committed c /\ (progressPercentage c == 100)%Q)
  /\ (exists c, committed c /\ (progressPercentage c == inject_Z (-3500))%Q).
Proof.
  split; [|split; [|split]].
  - intros s Hreach. destruct (reachable_well_timed s Hreach) as (Hc & _ & Hleft).
    pose proof (cons_sessionTime s Hc) as Hst.
    pose proof (cons_remaining_bound s Hc) as Hb.
    unfold MIN_SESSION_TIME, MAX_SESSION_TIME in Hst.
    destruct (isActive s) eqn:Hact.
    + specialize (Hleft eq_refl). specialize (Hb eq_refl).
      pose proof (progress_active s Hact ltac:(lia)) as Hp.
      assert (Hpos : Z.pos (Z.to_pos (sessionTime s * 60)) = sessionTime s * 60)
        by (apply Z2Pos.id; lia).
      repeat split; try discriminate.
      * rewrite Hp. unfold Qle. cbn [Qnum Qden]. lia.
      * rewrite Hp. unfold Qlt. cbn [Qnum Qden]. rewrite Hpos. lia.
      * intros _ Hfull. rewrite Hp. unfold Qeq. cbn [Qnum Qden]. lia.
    + unfold progressPercentage. rewrite Hact.
      repeat split; try reflexivity; try discriminate.
  - intros s Hcom. destruct (committed_settings s Hcom) as (_ & Hst & Hn & Hcap).
    unfold MIN_SESSION_TIME, MAX_SESSION_TIME in Hst, Hcap.
    destruct (isActive s) eqn:Hact.
    + pose proof (progress_active s Hact ltac:(lia)) as Hp.
      assert (Hpos : Z.pos (Z.to_pos (sessionTime s * 60)) = sessionTime s * 60)
        by (apply Z2Pos.id; lia).
      split; rewrite Hp; unfold Qle, inject_Z; cbn [Qnum Qden]; rewrite ?Hpos; lia.
    + unfold progressPercentage. rewrite Hact. split; discriminate.
  - exists (render_before_effects (ClickStart 1000) initial).
    split; [|vm_compute; reflexivity].
    apply committed_before_effects; [exact reach_initial | reflexivity].
  - exists (render_before_effects (ClickStart 2000) shortened).
    split; [|vm_compute; reflexivity].
    apply committed_before_effects;
      [exact reachable_shortened | vm_compute; reflexivity].
Qed.

Lemma progress_within_bounds_witness :
  reachable last_second
  /\ (0 <= progressPercentage last_second)%Q
  /\ (progressPercentage last_second < 100)%Q
  /\ (progressPercentage started == 0)%Q
  /\ committed (render_before_effects (ClickStart 2000) shortened)
  /\ (inject_Z (-3500) <= progressPercentage
                    (render_before_effects (ClickStart 2000) shortened))%Q.
Proof.
  split; [exact reachable_last_second|].
  destruct progress_within_bounds as (Hsettled & Hcommitted & _).
  destruct (Hsettled last_second reachable_last_second) as (Hlo & Hhi & _).
  destruct (Hsettled started reachable_started) as (_ & _ & _ & Hzero).
  split; [exact Hlo|]. split; [exact Hhi|].
  split; [apply Hzero; reflexivity|].
  assert (Hc : committed (render_before_effects (ClickStart 2000) shortened)).
  { apply committed_before_effects;
      [exact reachable_shortened | vm_compute; reflexivity]. }
  split; [exact Hc | exact (proj1 (Hcommitted _ Hc))].
Defined.

(** Every firing of the session timer that does not end the session moves
    the progress strictly forward. *)
Theorem progress_advances (s : State) :
  reachable s -> isActive s = true -> 1 < timeRemaining s ->
  (progressPercentage s < progressPercentage (step SessionTick s))%Q.
Proof.
  intros Hreach Hact Hgt. pose proof (reachable_consistent s Hreach) as Hc.
  pose proof (cons_sessionTime s Hc) as Hst.
  unfold MIN_SESSION_TIME, MAX_SESSION_TIME in Hst.
  pose proof (tick_before_last s Hc Hact Hgt) as Hd.
  assert (Hs : step SessionTick s = with_timeRemaining (timeRemaining s - 1) s)
    by (unfold step, exec; rewrite Hd; reflexivity).
  rewrite Hs.
  assert (Hact' : isActive (with_timeRemaining (timeRemaining s - 1) s) = true)
    by (destruct s; exact Hact).
  assert (Hst' : sessionTime (with_timeRemaining (timeRemaining s - 1) s)
                 = sessionTime s) by (destruct s; reflexivity).
  assert (Htr' : timeRemaining (with_timeRemaining (timeRemaining s - 1) s)
                 = timeRemaining s - 1) by (destruct s; reflexivity).
  rewrite (progress_active s Hact) by lia.
  rewrite (progress_active _ Hact') by (rewrite Hst'; lia).
  rewrite Hst', Htr'. unfold Qlt. cbn [Qnum Qden].
  rewrite Z2Pos.id by lia. lia.
Qed.

Lemma progress_advances_witness :
  reachable started /\ isActive started = true /\ 1 < timeRemaining started
  /\ (progressPercentage started < progressPercentage (step SessionTick started))%Q.
Proof.
  split; [exact reachable_started|]. do 2 (split; [reflexivity|]).
  exact (progress_advances started reachable_started eq_refl eq_refl).
Defined.

(* ================================================================== *)
(** ** The time on display *)

Lemma parseTime_formatTime (n : Z) :
  0 <= n <= JS.MAX_SAFE_INTEGER -> parseTime (formatTime n) = Some n.
Proof.
  intros Hn.
  assert (Hq : 0 <= n / 60) by (apply Z.div_pos; lia).
  assert (Hr : 0 <= n mod 60 < 60) by (apply Z.mod_pos_bound; lia).
  destruct (seconds_field _ Hr) as [Hpad Hsec].
  unfold formatTime, JS.rem, parseTime. rewrite (floor_div_safe n Hn).
  rewrite Z.rem_mod_nonneg, Hpad by lia.
  change (":" ++ two_digits (n mod 60)) with (String ":" (two_digits (n mod 60))).
  rewrite split_colon_toString by exact Hq.
  rewrite (proj1 (toString_decimal _ Hq)), Hsec.
  f_equal. pose proof (Z.div_mod n 60). lia.
Qed.

(** Two different numbers of seconds among the safe non-negative integers
    never format to the same string. *)
Theorem formatTime_injective (a b : Z) :
  0 <= a <= JS.MAX_SAFE_INTEGER -> 0 <= b <= JS.MAX_SAFE_INTEGER ->
  formatTime a = formatTime b -> a = b.
Proof.
  intros Ha Hb Heq.
  pose proof (parseTime_formatTime a Ha) as Pa.
  pose proof (parseTime_formatTime b Hb) as Pb.
  rewrite Heq, Pb in Pa. now injection Pa.
Qed.

Lemma formatTime_injective_witness :
  0 <= 59 <= JS.MAX_SAFE_INTEGER /\ 0 <= 60 <= JS.MAX_SAFE_INTEGER
  /\ formatTime 59 <> formatTime 60.
Proof.
  assert (Ha : 0 <= 59 <= JS.MAX_SAFE_INTEGER) by (vm_compute; split; discriminate).
  assert (Hb : 0 <= 60 <= JS.MAX_SAFE_INTEGER) by (vm_compute; split; discriminate).
  split; [exact Ha|]. split; [exact Hb|].
  intros Heq. pose proof (formatTime_injective 59 60 Ha Hb Heq) as H.
  discriminate H.
Defined.

(** The card description of an active session always shows the remaining
    time in a form that reads back as [timeRemaining], which is at most
    the 10800 seconds of the longest session; with no session active it
    shows no time at all. *)
Theorem shown_time_is_remaining (s : State) :
  reachable s ->
  (isActive s = true ->
   shownTime (cardDescription s) = Some (timeRemaining s)
   /\ 0 <= timeRemaining s <= 10800)
  /\ (isActive s = false -> shownTime (cardDescription s) = None).
Proof.
  intros Hreach. apply reachable_consistent in Hreach.
  pose proof (cons_remaining_nonneg s Hreach) as Hn.
  pose proof (cons_remaining_bound s Hreach) as Hb.
  pose proof (cons_sessionTime s Hreach) as Hst.
  unfold MIN_SESSION_TIME, MAX_SESSION_TIME in Hst.
  unfold cardDescription, shownTime.
  split; intros Hact; rewrite Hact.
  - split; [|specialize (Hb Hact); lia].
    cbn [String.append strip_prefix Ascii.eqb Bool.eqb].
    apply parseTime_formatTime. specialize (Hb Hact).
    unfold JS.MAX_SAFE_INTEGER. lia.
  - reflexivity.
Qed.

Lemma shown_time_is_remaining_witness :
  reachable last_second /\ isActive last_second = true
  /\ cardDescription last_second = "Time remaining: 0:01"
  /\ shownTime (cardDescription last_second) = Some 1.
Proof.
  split; [exact reachable_last_second|].
  assert (Hact : isActive last_second = true) by (vm_compute; reflexivity).
  split; [exact Hact|]. split; [vm_compute; reflexivity|].
  destruct (shown_time_is_remaining last_second reachable_last_second) as [H _].
  destruct (H Hact) as [Hshown _].
  transitivity (Some (timeRemaining last_second));
    [exact Hshown | vm_compute; reflexivity].
Defined.

(* ================================================================== *)
(** ** Settings and the countdown *)

(** How the settings reach the countdown. Moving the timeout slider never
    touches the text, the phase or the remaining time. Moving the
    session-length slider while no session is active leaves the remaining
    time alone, and the next start counts down from the new length; moving
    it to a new value during a session restarts the countdown from that
    length, because the session effect depends on [sessionTime]. *)
Theorem settings_reach_countdown (s : State) (v now : Z) :
  reachable s ->
  (text (step (SlideTimeout v) s) = text s
   /\ isActive (step (SlideTimeout v) s) = isActive s
   /\ timeRemaining (step (SlideTimeout v) s) = timeRemaining s)
  /\ (isActive s = false ->
      timeRemaining (step (SlideSessionTime v) s) = timeRemaining s
      /\ timeRemaining (step (ClickStart now) (step (SlideSessionTime v) s))
         = v * 60)
  /\ (isActive s = true -> v <> sessionTime s ->
      timeRemaining (step (SlideSessionTime v) s) = v * 60
      /\ text (step (SlideSessionTime v) s) = text s).
Proof.
  intros Hreach. open_state Hreach s.
  split; [|split].
  - destruct act; js_run; repeat split; reflexivity.
  - intros ->. js_run; split; reflexivity.
  - intros -> Hneq. js_run; try congruence; split; reflexivity.
Qed.

Lemma settings_reach_countdown_witness :
  reachable (step OpenSettings initial)
  /\ isActive (step OpenSettings initial) = false
  /\ timeRemaining (step (ClickStart 1000)
                      (step (SlideSessionTime 30) (step OpenSettings initial)))
     = 1800.
Proof.
  assert (Hr : reachable (step OpenSettings initial))
    by (apply reach_step; [exact reach_initial | reflexivity]).
  split; [exact Hr|]. split; [reflexivity|].
  destruct (settings_reach_countdown _ 30 1000 Hr) as (_ & Hidle & _).
  exact (proj2 (Hidle eq_refl)).
Defined.

(* ================================================================== *)
(** ** What restarts the inactivity window *)

(** [lastKeystroke] after any event, in a reachable state: a start and an
    edit set it to the time of the event, and nothing else moves it, not
    the timeout tick that erases the text, not the settings, not the end
    of the session. *)
Theorem lastKeystroke_after_event (s : State) (ev : Event) :
  reachable s ->
  lastKeystroke (step ev s)
  = match ev with
    | ClickStart now => now
    | ChangeText _ now => now
    | _ => lastKeystroke s
    end.
Proof.
  intros Hreach. open_state Hreach s.
  destruct ev, act; js_run; reflexivity.
Qed.

Lemma lastKeystroke_after_event_witness :
  reachable last_second
  /\ lastKeystroke (step (TimeoutTick 9000) last_second) = 1500
  /\ lastKeystroke (step (ChangeText "more" 9000) last_second) = 9000.
Proof.
  split; [exact reachable_last_second|]. split.
  - rewrite (lastKeystroke_after_event last_second (TimeoutTick 9000)
               reachable_last_second).
    vm_compute. reflexivity.
  - exact (lastKeystroke_after_event last_second (ChangeText "more" 9000)
             reachable_last_second).
Defined.

(* ================================================================== *)
(** ** The last second *)

(** The two intervals are independent, and at the last second their order
    decides the fate of the text. When the inactivity has expired and one
    second at most is left, the session timer firing first ends the session
    with the text kept, the timeout tick that follows finding no session;
    the timeout tick firing first erases the text before the session
    ends. *)
Theorem last_second_order (s : State) (now : Z) :
  reachable s -> isActive s = true -> timeRemaining s <= 1 ->
  expired (lastKeystroke s) (timeoutSeconds s) now = true ->
  (text (run [SessionTick; TimeoutTick now] s) = text s
   /\ run_output [SessionTick; TimeoutTick now] s
      = [ToastSuccess completed_message])
  /\ (text (run [TimeoutTick now; SessionTick] s) = ""
      /\ run_output [TimeoutTick now; SessionTick] s
         = [ToastError (deleted_message (timeoutSeconds s));
            ToastSuccess completed_message])
  /\ isActive (run [SessionTick; TimeoutTick now] s) = false
  /\ isActive (run [TimeoutTick now; SessionTick] s) = false.
Proof.
  intros Hreach Hact Hle Hexp. open_state Hreach s. subst act.
  js_eval. rewrite Hexp. js_eval.
  destruct (Z.leb_spec tr 1); [|lia].
  js_run; try lia. repeat split; reflexivity.
Qed.

Lemma last_second_order_witness :
  reachable last_second /\ isActive last_second = true
  /\ timeRemaining last_second <= 1
  /\ expired (lastKeystroke last_second) (timeoutSeconds last_second) 9000 = true
  /\ text (run [SessionTick; TimeoutTick 9000] last_second) = "draft"
  /\ text (run [TimeoutTick 9000; SessionTick] last_second) = "".
Proof.
  split; [exact reachable_last_second|].
  assert (Hact : isActive last_second = true) by (vm_compute; reflexivity).
  assert (Hle : timeRemaining last_second <= 1) by (vm_compute; discriminate).
  assert (Hexp : expired (lastKeystroke last_second) (timeoutSeconds last_second)
                   9000 = true) by (vm_compute; reflexivity).
  split; [exact Hact|]. split; [exact Hle|]. split; [exact Hexp|].
  destruct (last_second_order last_second 9000 reachable_last_second Hact Hle Hexp)
    as ((Hkeep & _) & (Herase & _) & _).
  split; [|exact Herase].
  transitivity (text last_second); [exact Hkeep | vm_compute; reflexivity].
Defined.
